(** * Scramblr: the two-phase renaming worker and its controller

    A shallow embedding of [Scramblr.py]: the worker thread
    [RandomizerWorker.run], the directory scan
    [ImageRandomizer.get_image_files] and the launch logic of
    [ImageRandomizer.process_folder].

    Modelling conventions.
    - A Python [str] is a [string] (a list of bytes); [str.lower] acts on
      the ASCII letters.
    - The selected folder is a finite map from entry names to entries; a
      path [os.path.join(folder_path, name)] is identified with [name].
    - A Python [dict] is an association list in insertion order.
    - A Python [float] is the rational it denotes; arithmetic rounds the
      exact result to the nearest binary64 value, ties to even.
    - [run] is a computation in a monad with state (the directory and the
      cursors of the oracles), exceptions, and a log of observable actions
      (signals emitted, [os.rename] calls).
    - Randomness, UUIDs, the clock and externally caused I/O failures are
      oracles of the environment. *)

From Stdlib Require Import ZArith QArith Qround Qabs Qpower Lia Lqa SpecFloat.
From Stdlib Require Import Ascii String DecimalString DecimalNat DecimalFacts.
From stdpp Require Import gmap strings list fin_maps.

Local Open Scope string_scope.
Local Open Scope list_scope.

(** ** Strings *)

Module PyStr.

(** [str(n)] for a non-negative [int]. *)
Definition str_of_nat (n : nat) : string :=
  NilEmpty.string_of_uint (Nat.to_uint n).

Fixpoint zeros (n : nat) : string :=
  match n with
  | O => EmptyString
  | S n' => String "0"%char (zeros n')
  end.

(** The format spec [03d]: decimal, zero-padded on the left to a width of
    at least 3. *)
Definition fmt03d (n : nat) : string :=
  let s := str_of_nat n in
  zeros (3 - String.length s) +:+ s.

Definition lower_ascii (c : ascii) : ascii :=
  let n := nat_of_ascii c in
  if (65 <=? n)%nat && (n <=? 90)%nat then ascii_of_nat (n + 32) else c.

(** [s.lower()] *)
Fixpoint lower (s : string) : string :=
  match s with
  | EmptyString => EmptyString
  | String c s' => String (lower_ascii c) (lower s')
  end.

(** [s.rfind(c)] for a one-character [c], as [None] for [-1]. The
    accumulator [i] is the index of the head of [s]. *)
Fixpoint rfind_from (c : ascii) (s : string) (i : nat) : option nat :=
  match s with
  | EmptyString => None
  | String a s' =>
      match rfind_from c s' (S i) with
      | Some j => Some j
      | None => if Ascii.eqb a c then Some i else None
      end
  end.

Definition rfind (c : ascii) (s : string) : Z :=
  match rfind_from c s 0 with
  | Some j => Z.of_nat j
  | None => (-1)%Z
  end.

(** [s[:n]] and [s[n:]] *)
Fixpoint take_str (n : nat) (s : string) : string :=
  match n, s with
  | S n', String a s' => String a (take_str n' s')
  | _, _ => EmptyString
  end.

Fixpoint drop_str (n : nat) (s : string) : string :=
  match n, s with
  | S n', String _ s' => drop_str n' s'
  | _, _ => s
  end.

Definition is_space (c : ascii) : bool :=
  let n := nat_of_ascii c in
  (n =? 32)%nat || ((9 <=? n)%nat && (n <=? 13)%nat).

(** A blank string: nothing but whitespace (the empty string included). *)
Fixpoint blank (s : string) : bool :=
  match s with
  | EmptyString => true
  | String c s' => is_space c && blank s'
  end.

End PyStr.

(** ** [os.path.splitext] *)

Module OsPath.
Import PyStr.

Inductive platform := posix | win32.

Definition sep (pl : platform) : ascii :=
  match pl with posix => "/" | win32 => "\" end%char.

Definition altsep (pl : platform) : option ascii :=
  match pl with posix => None | win32 => Some "/"%char end.

Definition extsep : ascii := "."%char.

(** The [while] loop of [genericpath._splitext]: scan
    [p[filenameIndex .. dotIndex)] for a character other than the dot.
    [n] is [dotIndex - filenameIndex]. *)
Fixpoint has_stem (p : string) (filenameIndex n : nat) : bool :=
  match n with
  | O => false
  | S n' =>
      match String.get filenameIndex p with
      | Some c =>
          if Ascii.eqb c extsep then has_stem p (S filenameIndex) n' else true
      | None => true
      end
  end.

(** [os.path.splitext(p)]: the extension starts at the last dot, provided
    that dot comes after the last separator and after a character of the
    last component that is not a dot. *)
Definition splitext (pl : platform) (p : string) : string * string :=
  let sepIndex :=
    match altsep pl with
    | Some a => Z.max (rfind (sep pl) p) (rfind a p)
    | None => rfind (sep pl) p
    end in
  let dotIndex := rfind extsep p in
  if (sepIndex <? dotIndex)%Z
     && has_stem p (Z.to_nat (sepIndex + 1)) (Z.to_nat (dotIndex - (sepIndex + 1)))
  then (take_str (Z.to_nat dotIndex) p, drop_str (Z.to_nat dotIndex) p)
  else (p, EmptyString).

Definition ext (pl : platform) (p : string) : string := snd (splitext pl p).

End OsPath.

(** ** Python dictionaries *)

Module PyDict.

Abbreviation dict := (list (string * string)).

(** [d[k] = v]: an existing key keeps its position, a new key goes last. *)
Fixpoint set (k v : string) (d : dict) : dict :=
  match d with
  | [] => [(k, v)]
  | (k', v') :: d' =>
      if String.eqb k' k then (k', v) :: d' else (k', v') :: set k v d'
  end.

Fixpoint get (k : string) (d : dict) : option string :=
  match d with
  | [] => None
  | (k', v') :: d' => if String.eqb k' k then Some v' else get k d'
  end.

Definition keys (d : dict) : list string := d.*1.
Definition values (d : dict) : list string := d.*2.
Definition items (d : dict) : list (string * string) := d.

End PyDict.

(** ** Python floats

    A finite [float] is identified with the rational it denotes. Each
    operation returns the exact result rounded to the nearest binary64
    number, ties to even, as IEEE 754 prescribes; the results here are
    far below the overflow threshold, which is not modelled. *)

Module PyFloat.

Definition prec : Z := 53.
Definition emin : Z := -1074.

Definition pow2 (k : Z) : Q := (2 ^ k)%Q.

(** [floor (log2 x)] for [0 < x]. *)
Definition ilog2 (x : Q) : Z :=
  let k := (Z.log2 (Qnum x) - Z.log2 (Zpos (Qden x)))%Z in
  if Qle_bool (pow2 k) x then k else (k - 1)%Z.

(** Nearest integer, ties to even. *)
Definition round_half_even (t : Q) : Z :=
  let f := Qfloor t in
  match (t - inject_Z f ?= 1 # 2)%Q with
  | Lt => f
  | Eq => if Z.even f then f else (f + 1)%Z
  | Gt => (f + 1)%Z
  end.

(** Exponent of the last mantissa bit of the binary64 numbers around
    [x]: 53 bits of precision, and the subnormal range below [2^-1022]. *)
Definition ulp_exp (x : Q) : Z := Z.max (ilog2 x - (prec - 1)) emin.

Definition round_pos (x : Q) : Q :=
  let e := ulp_exp x in
  (inject_Z (round_half_even (x / pow2 e)) * pow2 e)%Q.

(** Round to nearest binary64 value. *)
Definition round (x : Q) : Q :=
  match (x ?= 0)%Q with
  | Eq => 0%Q
  | Gt => Qred (round_pos x)
  | Lt => Qred (- round_pos (- x))
  end.

(** [x * y] and [x - y] on floats *)
Definition mul (x y : Q) : Q := round (x * y).
Definition sub (x y : Q) : Q := round (x - y).

(** [float(n)] for an [int] that is a binary64 number, such as [50]. *)
Definition of_int (n : Z) : Q := inject_Z n.

(** [int(x)]: truncation towards zero. *)
Definition to_int (x : Q) : Z :=
  if Qle_bool 0 x then Qfloor x else Qceiling x.

(** Value of a finite number of the Standard Library's model of IEEE 754
    numbers, to compare [round] with its operations. *)
Definition SF2Q (f : SpecFloat.spec_float) : option Q :=
  match f with
  | SpecFloat.S754_zero _ => Some 0%Q
  | SpecFloat.S754_finite s m e =>
      Some ((if s then inject_Z (Zneg m) else inject_Z (Zpos m)) * pow2 e)%Q
  | _ => None
  end.

Definition SF_of_pos (n : positive) : SpecFloat.spec_float :=
  SpecFloat.binary_normalize 53 1024 (Zpos n) 0 false.

End PyFloat.
(** ** Exceptions *)

Module PyExn.
Import PyStr.

Inductive exn :=
  | OSError (errno : nat) (strerror filename filename2 : string)
  | ZeroDivisionError (msg : string).

(** [str(e)] *)
Definition str (e : exn) : string :=
  match e with
  | OSError n msg f f2 =>
      "[Errno " +:+ str_of_nat n +:+ "] " +:+ msg +:+ ": '" +:+ f +:+ "' -> '" +:+ f2 +:+ "'"
  | ZeroDivisionError msg => msg
  end.

End PyExn.

(** ** The folder and [os.rename] *)

Module Fs.
Import OsPath PyExn.

Inductive file_kind := RegularFile | Directory | Special.

Record entry := Entry { kind : file_kind; ino : nat }.

#[global] Instance file_kind_eq_dec : EqDecision file_kind.
Proof. solve_decision. Defined.

#[global] Instance entry_eq_dec : EqDecision entry.
Proof. solve_decision. Defined.

(** The selected folder: its entries by name. *)
Abbreviation folder := (gmap string entry).

(** [os.listdir(folder_path)], in the order the map enumerates. *)
Definition listdir (d : folder) : list string := (map_to_list d).*1.

(** [os.path.isfile(os.path.join(folder_path, f))] *)
Definition isfile (d : folder) (f : string) : bool :=
  match d !! f with
  | Some (Entry RegularFile _) => true
  | _ => false
  end.

(** The error [os.rename(src, dst)] raises on the folder as it stands, if
    any. An existing destination is replaced on POSIX and refused on
    Windows; a directory is never replaced (directories of the folder are
    taken to be non-empty). *)
Definition rename_error (pl : platform) (src dst : string) (d : folder) : option exn :=
  match d !! src with
  | None => Some (OSError 2 "No such file or directory" src dst)
  | Some e =>
      if decide (src = dst) then None
      else
        match d !! dst with
        | None => None
        | Some e' =>
            match pl with
            | win32 =>
                Some (OSError 17 "Cannot create a file when that file already exists" src dst)
            | posix =>
                match kind e, kind e' with
                | Directory, Directory => Some (OSError 39 "Directory not empty" src dst)
                | Directory, _ => Some (OSError 20 "Not a directory" src dst)
                | _, Directory => Some (OSError 21 "Is a directory" src dst)
                | _, _ => None
                end
            end
        end
  end.

(** The effect of a successful [os.rename(src, dst)]. *)
Definition move (src dst : string) (d : folder) : folder :=
  match d !! src with
  | Some e => if decide (src = dst) then d else <[dst := e]> (delete src d)
  | None => d
  end.

End Fs.

(** ** The execution monad *)

Module Exec.
Import PyStr OsPath PyDict PyExn Fs.

(** The three signals of [RandomizerWorker]. *)
Inductive signal :=
  | progress_update (value : Z) (message : string)
  | finished (result : dict) (duration : Q)
  | error (message : string).

(** What an observer of a run sees, in order. *)
Inductive action :=
  | Emit (s : signal)
  | Rename (src dst : string) (failure : option exn).

(** The environment of one execution: the platform and the oracles, each
    indexed by the number of calls made before. [io_fault] is a failure an
    [os.rename] call meets for a reason outside the folder's entries
    (permissions, a full disk, a file held open). *)
Record env := Env {
  platform_of : platform;
  uuid_str : nat -> string;
  random_draw : nat -> nat;
  io_fault : nat -> option exn;
  clock : nat -> Q
}.

Record world := World {
  fs : folder;
  n_rename : nat;
  n_uuid : nat;
  n_random : nat;
  n_clock : nat
}.

Inductive outcome (A : Type) :=
  | Return (a : A)
  | Raise (e : exn).
Arguments Return {A} a.
Arguments Raise {A} e.

Definition M (A : Type) : Type := world -> outcome A * world * list action.

Definition ret {A} (a : A) : M A := fun w => (Return a, w, []).

Definition raise {A} (e : exn) : M A := fun w => (Raise e, w, []).

Definition bind {A B} (m : M A) (f : A -> M B) : M B :=
  fun w =>
    match m w with
    | (Return a, w1, t1) =>
        let '(r, w2, t2) := f a w1 in (r, w2, t1 ++ t2)
    | (Raise e, w1, t1) => (Raise e, w1, t1)
    end.

(** [try: m  except Exception as e: h e] *)
Definition try_except {A} (m : M A) (h : exn -> M A) : M A :=
  fun w =>
    match m w with
    | (Return a, w1, t1) => (Return a, w1, t1)
    | (Raise e, w1, t1) =>
        let '(r, w2, t2) := h e w1 in (r, w2, t1 ++ t2)
    end.

Declare Scope py_scope.
Delimit Scope py_scope with py.
Notation "'let*' x ':=' m 'in' k" := (bind m (fun x => k))
  (at level 10, x name, m at level 100, k at level 200) : py_scope.
Notation "m ;;; k" := (bind m (fun _ => k))
  (at level 100, k at level 200, right associativity) : py_scope.
Local Open Scope py_scope.

(** [xs] visited in order by a loop body that threads the loop's
    variables [s]. *)
Fixpoint for_each {A S} (xs : list A) (body : A -> S -> M S) (s : S) : M S :=
  match xs with
  | [] => ret s
  | x :: xs' => let* s' := body x s in for_each xs' body s'
  end.

(** [enumerate(xs, start)] *)
Fixpoint enumerate {A} (start : nat) (xs : list A) : list (nat * A) :=
  match xs with
  | [] => []
  | x :: xs' => (start, x) :: enumerate (S start) xs'
  end.

(** [signal.emit(...)] *)
Definition emit (s : signal) : M unit := fun w => (Return tt, w, [Emit s]).

(** [str(uuid.uuid4())] *)
Definition uuid4 (E : env) : M string :=
  fun w =>
    (Return (uuid_str E (n_uuid w)),
     World (fs w) (n_rename w) (S (n_uuid w)) (n_random w) (n_clock w), []).

(** [time.time()] *)
Definition time_time (E : env) : M Q :=
  fun w =>
    (Return (clock E (n_clock w)),
     World (fs w) (n_rename w) (n_uuid w) (n_random w) (S (n_clock w)), []).

(** [random.Random._randbelow(n)] for [0 < n] *)
Definition randbelow (E : env) (n : nat) : M nat :=
  fun w =>
    (Return (random_draw E (n_random w) mod n),
     World (fs w) (n_rename w) (n_uuid w) (S (n_random w)) (n_clock w), []).

(** [x[i], x[j] = x[j], x[i]] *)
Definition swap {A} (x : list A) (i j : nat) : list A :=
  match x !! i, x !! j with
  | Some a, Some b => <[j := a]> (<[i := b]> x)
  | _, _ => x
  end.

(** [random.shuffle(x)]:
    [for i in reversed(range(1, len(x))): j = randbelow(i + 1); swap]. *)
Fixpoint shuffle_from {A} (E : env) (i : nat) (x : list A) : M (list A) :=
  match i with
  | O => ret x
  | S i' => let* j := randbelow E (i + 1) in shuffle_from E i' (swap x i j)
  end.

Definition random_shuffle {A} (E : env) (x : list A) : M (list A) :=
  shuffle_from E (length x - 1) x.

(** Whether, and how, the next [os.rename(src, dst)] fails. *)
Definition rename_failure (E : env) (src dst : string) (w : world) : option exn :=
  match io_fault E (n_rename w) with
  | Some e => Some e
  | None => rename_error (platform_of E) src dst (fs w)
  end.

(** [os.rename(os.path.join(folder_path, src), os.path.join(folder_path, dst))] *)
Definition os_rename (E : env) (src dst : string) : M unit :=
  fun w =>
    let failure := rename_failure E src dst w in
    let fs' := match failure with Some _ => fs w | None => move src dst (fs w) end in
    (match failure with Some e => Raise e | None => Return tt end,
     World fs' (S (n_rename w)) (n_uuid w) (n_random w) (n_clock w),
     [Rename src dst failure]).

(** [a / b] on [int]s *)
Definition truediv (a b : nat) : M Q :=
  if (b =? 0)%nat then raise (ZeroDivisionError "division by zero")
  else ret (PyFloat.round (inject_Z (Z.of_nat a) / inject_Z (Z.of_nat b))).

End Exec.

(** ** [RandomizerWorker] *)

Module Worker.
Import PyStr OsPath PyDict PyExn Fs Exec.
Local Open Scope py_scope.

Record RandomizerWorker := Build_worker {
  folder_path : string;
  image_files : list string;
  new_prefix : string
}.

(** [__init__(self, folder_path, image_files, new_prefix="image_")] *)
Definition init (folder_path : string) (image_files : list string)
    (new_prefix : option string) : RandomizerWorker :=
  Build_worker folder_path image_files (default "image_" new_prefix).

(** Body of the first [for] loop of [run]. *)
Definition phase1_body (E : env) (total_files : nat) (it : nat * string)
    (temp_names : dict) : M dict :=
  let '(i, filename) := it in
  let* u := uuid4 E in
  let temp_name := "temp_" +:+ u +:+ ext (platform_of E) filename in
  os_rename E filename temp_name ;;;
  let temp_names := PyDict.set filename temp_name temp_names in
  let* q := truediv (i + 1) total_files in
  let progress := PyFloat.to_int (PyFloat.mul q (PyFloat.of_int 50)) in
  emit (progress_update progress
          ("Phase 1/2: Preparing file " +:+ str_of_nat (i + 1) +:+ "/" +:+ str_of_nat total_files)) ;;;
  ret temp_names.

(** Body of the second [for] loop of [run]. *)
Definition phase2_body (E : env) (self : RandomizerWorker) (total_files : nat)
    (it : nat * (string * string)) (final_names : dict) : M dict :=
  let '(i, (original_name, temp_name)) := it in
  let extension := ext (platform_of E) original_name in
  let new_name := new_prefix self +:+ fmt03d i +:+ extension in
  os_rename E temp_name new_name ;;;
  let final_names := PyDict.set original_name new_name final_names in
  let* q := truediv i total_files in
  let progress := (50 + PyFloat.to_int (PyFloat.mul q (PyFloat.of_int 50)))%Z in
  emit (progress_update progress
          ("Phase 2/2: Renaming file " +:+ str_of_nat i +:+ "/" +:+ str_of_nat total_files)) ;;;
  ret final_names.

(** The [try] block of [run]. It returns the two local dictionaries
    [temp_names] and [final_names], which [run] itself discards. *)
Definition run_try (E : env) (self : RandomizerWorker) : M (dict * dict) :=
  let* start_time := time_time E in
  let* image_files := random_shuffle E (image_files self) in
  let total_files := length image_files in
  emit (progress_update 0 "Phase 1/2: Preparing files...") ;;;
  let* temp_names := for_each (enumerate 0 image_files) (phase1_body E total_files) [] in
  emit (progress_update 50 "Phase 2/2: Finalizing names...") ;;;
  let temp_items := PyDict.items temp_names in
  let* final_names := for_each (enumerate 1 temp_items) (phase2_body E self total_files) [] in
  let* end_time := time_time E in
  let duration := PyFloat.sub end_time start_time in
  emit (finished final_names duration) ;;;
  ret (temp_names, final_names).

(** [RandomizerWorker.run] *)
Definition run (E : env) (self : RandomizerWorker) : M unit :=
  try_except (run_try E self ;;; ret tt) (fun e => emit (error (PyExn.str e))).

End Worker.

(** ** [ImageRandomizer] *)

Module Controller.
Import PyStr OsPath PyDict Fs Exec Worker.

Definition image_extensions : gset string :=
  {[ ".jpg"; ".jpeg"; ".png"; ".gif"; ".bmp"; ".tiff"; ".webp" ]}.

(** [ImageRandomizer.get_image_files] *)
Definition get_image_files (pl : platform) (d : folder) : list string :=
  filter (fun f => isfile d f = true /\ lower (ext pl f) ∈ image_extensions)
         (listdir d).

(** What [process_folder] reads from the window and its dialogs. *)
Record ui := Ui {
  path_text : string;
  path_isdir : bool;
  prefix_text : string;
  reply_yes : bool
}.

Inductive launch :=
  | InvalidFolder
  | NoImages
  | Cancelled
  | Started (w : RandomizerWorker).

(** [a or b] on strings *)
Definition str_or (a b : string) : string :=
  match a with EmptyString => b | _ => a end.

(** [ImageRandomizer.process_folder], up to the start of the worker. *)
Definition process_folder (pl : platform) (u : ui) (d : folder) : launch :=
  let folder_path := path_text u in
  if negb (path_isdir u) then InvalidFolder
  else
    let image_files := get_image_files pl d in
    match image_files with
    | [] => NoImages
    | _ =>
        if reply_yes u then
          let new_prefix := str_or (prefix_text u) "image_" in
          Started (init folder_path image_files (Some new_prefix))
        else Cancelled
    end.

End Controller.

Import PyStr OsPath PyDict PyFloat PyExn Fs Exec Worker Controller.

(** ** Vocabulary of the specification *)

Definition is_digit (c : ascii) : bool :=
  let n := nat_of_ascii c in (48 <=? n)%nat && (n <=? 57)%nat.

Fixpoint digits (s : string) : bool :=
  match s with
  | EmptyString => true
  | String c s' => is_digit c && digits s'
  end.

(** The number a padded numeral denotes. *)
Definition numeral_value (s : string) : option nat :=
  Nat.of_uint <$> NilEmpty.uint_of_string s.

(** The value of [int(i / total_files * 50)], for [total_files <> 0]. *)
Definition half_percent (i total_files : nat) : Z :=
  to_int (mul (round (inject_Z (Z.of_nat i) / inject_Z (Z.of_nat total_files))) (of_int 50)).

(** The two terminal signals. *)
Definition is_terminal (a : action) : bool :=
  match a with
  | Emit (finished _ _) | Emit (error _) => true
  | _ => false
  end.

(** A progress signal or a rename that went through. *)
Definition ok_action (a : action) : bool :=
  match a with
  | Emit (progress_update _ _) | Rename _ _ None => true
  | _ => false
  end.

Definition failed_rename (a : action) : bool :=
  match a with
  | Rename _ _ (Some _) => true
  | _ => false
  end.

(** The percentages of the progress signals of a log, in order. *)
Fixpoint progress_values (t : list action) : list Z :=
  match t with
  | [] => []
  | Emit (progress_update v _) :: t' => v :: progress_values t'
  | _ :: t' => progress_values t'
  end.

(** The [os.rename] calls of a log, in order. *)
Fixpoint renames (t : list action) : list (string * string * option exn) :=
  match t with
  | [] => []
  | Rename src dst r :: t' => (src, dst, r) :: renames t'
  | _ :: t' => renames t'
  end.

(** The folder after the renames of a log that went through, and no other
    change. *)
Fixpoint replay (t : list action) (d : folder) : folder :=
  match t with
  | [] => d
  | Rename src dst None :: t' => replay t' (move src dst d)
  | _ :: t' => replay t' d
  end.

(** The percentages of a complete run on [n] files. *)
Definition full_progress (n : nat) : list Z :=
  0%Z :: ((fun i => half_percent i n) <$> seq 1 n)
    ++ 50%Z :: ((fun i => (50 + half_percent i n)%Z) <$> seq 1 n).

(** A sequence of percentages that never decreases. *)
Definition monotone (vs : list Z) : Prop :=
  forall i j a b,
    (i <= j)%nat -> vs !! i = Some a -> vs !! j = Some b -> (a <= b)%Z.

(** The keys of a dictionary filled from [l]: the first occurrences. *)
Definition add_key (ks : list string) (k : string) : list string :=
  if decide (k ∈ ks) then ks else ks ++ [k].

(** The name [f"{prefix}{i:03d}{extension}"] of the file [f]. *)
Definition new_name (pl : platform) (prefix : string) (i : nat) (f : string) : string :=
  prefix +:+ fmt03d i +:+ ext pl f.

(** The result of a run that processes the distinct files [ks] in order. *)
Definition numbered (pl : platform) (prefix : string) (ks : list string) : dict :=
  imap (fun i f => (f, new_name pl prefix (S i) f)) ks.

(** The step of the second loop on the dictionary [final_names]. *)
Definition assign (pl : platform) (prefix : string) (fn : dict)
    (it : nat * (string * string)) : dict :=
  PyDict.set it.2.1 (new_name pl prefix it.1 it.2.1) fn.

(** A log that ends with the [os.rename] call that raised [e], every
    earlier call having gone through. *)
Definition aborted (e : exn) (t : list action) : Prop :=
  exists pre src dst,
    t = pre ++ [Rename src dst (Some e)] /\ Forall ok_action pre.

(** Where a file of the folder [d0] is found in the folder [d']: under
    its final name, under its temporary name, under its original name, or
    under none of the three. *)
Inductive place := AtFinal | AtTemp | AtOriginal | Elsewhere.

#[global] Instance place_eq_dec : EqDecision place.
Proof. solve_decision. Defined.

Definition whereabouts (d0 d' : folder) (f tmp final : string) : place :=
  match d0 !! f with
  | None => Elsewhere
  | Some e =>
      if decide (d' !! final = Some e) then AtFinal
      else if decide (d' !! tmp = Some e) then AtTemp
      else if decide (d' !! f = Some e) then AtOriginal
      else Elsewhere
  end.

(** The temporary name of the [i]-th file (from 0) of a run started in
    the world [w]. *)
Definition temp_name (E : env) (w : world) (i : nat) (f : string) : string :=
  "temp_" +:+ uuid_str E (n_uuid w + i) +:+ ext (platform_of E) f.

(** The order in which a run on the world [w] processes the files. *)
Definition plan_of (E : env) (self : RandomizerWorker) (w : world) : list string :=
  match random_shuffle E (image_files self) w with
  | (Return l, _, _) => l
  | (Raise _, _, _) => image_files self
  end.

(** Where each file of the plan is found once the run is over. *)
Definition fates (E : env) (self : RandomizerWorker) (w : world) : list place :=
  imap (fun i f =>
          whereabouts (fs w) (fs (run E self w).1.2) f (temp_name E w i f)
            (new_name (platform_of E) (new_prefix self) (S i) f))
       (plan_of E self w).

Definition count_place (p : place) (l : list place) : nat :=
  length (filter (fun q => p = q) l).

(** The temporary names of a run. *)
Definition temp_names_of (E : env) (self : RandomizerWorker) (w : world) : list string :=
  imap (temp_name E w) (plan_of E self w).

(** The final names of a run. *)
Definition final_names_of (E : env) (self : RandomizerWorker) (w : world) : list string :=
  imap (fun i => new_name (platform_of E) (new_prefix self) (S i)) (plan_of E self w).

(** Three files, the three renames of the first phase go through, the
    first rename of the second phase goes through, the second one fails. *)
Definition second_commit_fails (E : env) (self : RandomizerWorker) (w : world) : Prop :=
  length (image_files self) = 3%nat /\
  (fun r => bool_decide (is_Some r.2)) <$> renames (run E self w).2
  = [false; false; false; false; true].

(** ** Sample inputs *)

Module Sample.

(** A folder with three images, a text file and a sub-folder. *)
Definition photos : folder :=
  list_to_map
    [("a.png", Entry RegularFile 1); ("b.JPG", Entry RegularFile 2);
     ("c.gif", Entry RegularFile 3); ("notes.txt", Entry RegularFile 4);
     ("old.jpeg", Entry Directory 5)].

(** An environment without outside failures: the n-th UUID is the
    numeral of n, the clock advances by one second per reading. *)
Definition calm : env :=
  Env posix (fun k => "u" +:+ str_of_nat k) (fun k => k) (fun _ => None)
      (fun k => inject_Z (Z.of_nat k)).

(** The same, but the fifth [os.rename] call is denied. *)
Definition denied : exn := OSError 13 "Permission denied" "temp" "image".

Definition fifth_fails : env :=
  Env posix (fun k => "u" +:+ str_of_nat k) (fun k => k)
      (fun k => if (k =? 4)%nat then Some denied else None)
      (fun k => inject_Z (Z.of_nat k)).

Definition start : world := World photos 0 0 0 0.

Definition worker : RandomizerWorker :=
  init "/home/me/photos" (get_image_files posix photos) None.

Definition result : dict :=
  [("b.JPG", "image_001.JPG"); ("a.png", "image_002.png"); ("c.gif", "image_003.gif")].

(** Another environment: other UUIDs, another clock. *)
Definition calm' : env :=
  Env posix (fun k => "f81d4fae-7dec-11d0-a765-00a0c91e6bf" +:+ str_of_nat k)
      (fun k => k) (fun _ => None) (fun k => inject_Z (7 * Z.of_nat k)).




End Sample.

(** ** The window and its slots *)

Module Window.

(** What the methods of [ImageRandomizer] read and write of its widgets. *)
Record window := Win {
  path_edit : string;
  prefix_edit : string;
  prefix_edit_enabled : bool;
  browse_btn_enabled : bool;
  randomize_btn_enabled : bool;
  status_label : string;
  progress_value : Z;
  progress_visible : bool;
  progress_text_visible : bool;
  progress_format : string;
  worker : option RandomizerWorker
}.

(** The message boxes. *)
Inductive dialog :=
  | warning (title text : string)
  | information (title text : string)
  | question (title text : string)
  | critical (title text : string).

(** The window as [setup_ui] leaves it. *)
Definition setup_ui : window :=
  Win EmptyString "image_" true true false "Ready" 0 false false "%p%" None.

Definition nl : string := String (ascii_of_nat 10) EmptyString.

(** [format(x, '.2f')]: the nearest multiple of one hundredth, ties to
    even. *)
Definition fmt_2f (x : Q) : string :=
  let n := Z.to_nat (PyFloat.round_half_even (Qabs x * 100)) in
  let cents := (n mod 100)%nat in
  (if Qle_bool 0 x then EmptyString else "-")
    +:+ str_of_nat (n / 100) +:+ "."
    +:+ (if (cents <? 10)%nat then "0" else EmptyString) +:+ str_of_nat cents.

(** [QProgressBar.setValue], for the range 0..100 that [setup_ui] sets: a
    value outside the range is ignored. *)
Definition setValue (v : Z) (win : window) : window :=
  if ((0 <=? v) && (v <=? 100))%Z then
    Win (path_edit win) (prefix_edit win) (prefix_edit_enabled win)
        (browse_btn_enabled win) (randomize_btn_enabled win) (status_label win)
        v (progress_visible win) (progress_text_visible win) (progress_format win)
        (worker win)
  else win.

(** [ImageRandomizer.set_controls_enabled] *)
Definition set_controls_enabled (enabled : bool) (win : window) : window :=
  Win (path_edit win) (prefix_edit win) enabled enabled enabled (status_label win)
      (progress_value win) (progress_visible win) (progress_text_visible win)
      (progress_format win) (worker win).

(** [ImageRandomizer.select_folder], given what the directory dialog
    returns (the empty string when it is dismissed) and
    [os.path.basename]. *)
Definition select_folder (basename : string -> string) (folder_path : string)
    (win : window) : window :=
  match folder_path with
  | EmptyString => win
  | _ =>
      Win folder_path (prefix_edit win) (prefix_edit_enabled win)
          (browse_btn_enabled win) true
          ("Folder selected: " +:+ basename folder_path)
          (progress_value win) (progress_visible win) (progress_text_visible win)
          (progress_format win) (worker win)
  end.

(** [ImageRandomizer.process_folder]: the window afterwards, the message
    boxes shown, and the worker started, if any. [isdir] is what
    [os.path.isdir] answers for the path of the window, [d] the folder at
    that path, [yes] the answer to the question. *)
Definition process_folder (pl : platform) (isdir : bool) (d : folder) (yes : bool)
    (win : window) : window * list dialog * option RandomizerWorker :=
  let folder_path := path_edit win in
  if negb isdir then
    (win, [warning "Invalid Folder" "Please select a valid folder first."], None)
  else
    let image_files := get_image_files pl d in
    match image_files with
    | [] =>
        (win,
         [information "No Images" "No compatible image files found in the selected folder."],
         None)
    | _ =>
        let ask :=
          question "Confirm Randomization"
            ("Found " +:+ str_of_nat (length image_files)
             +:+ " image files. Are you sure you want to randomize their names?"
             +:+ nl +:+ nl +:+ "This action cannot be undone.") in
        if yes then
          let win := set_controls_enabled false win in
          let win := setValue 0 win in
          let new_prefix := str_or (prefix_edit win) "image_" in
          let wk := init folder_path image_files (Some new_prefix) in
          (Win (path_edit win) (prefix_edit win) (prefix_edit_enabled win)
               (browse_btn_enabled win) (randomize_btn_enabled win) (status_label win)
               (progress_value win) true true (progress_format win) (Some wk),
           [ask], Some wk)
        else
          (Win (path_edit win) (prefix_edit win) (prefix_edit_enabled win)
               (browse_btn_enabled win) (randomize_btn_enabled win)
               "Operation cancelled."
               (progress_value win) (progress_visible win) (progress_text_visible win)
               (progress_format win) (worker win),
           [ask], None)
    end.

(** [ImageRandomizer.update_progress] *)
Definition update_progress (value : Z) (message : string) (win : window) : window :=
  let win := setValue value win in
  Win (path_edit win) (prefix_edit win) (prefix_edit_enabled win)
      (browse_btn_enabled win) (randomize_btn_enabled win) message
      (progress_value win) (progress_visible win) (progress_text_visible win)
      (message +:+ " - %p%") (worker win).

(** [ImageRandomizer.on_randomization_finished] *)
Definition on_randomization_finished (renamed_files : dict) (duration : Q)
    (win : window) : window * list dialog :=
  let win := setValue 100 win in
  let final_message :=
    "Successfully renamed " +:+ str_of_nat (length renamed_files)
    +:+ " files in " +:+ fmt_2f duration +:+ " seconds." in
  (set_controls_enabled true
     (Win (path_edit win) (prefix_edit win) (prefix_edit_enabled win)
          (browse_btn_enabled win) (randomize_btn_enabled win) final_message
          (progress_value win) false (progress_text_visible win)
          "Completed - 100%" (worker win)),
   [information "Success" final_message]).

(** [ImageRandomizer.on_randomization_error] *)
Definition on_randomization_error (error_message : string) (win : window)
    : window * list dialog :=
  (set_controls_enabled true
     (Win (path_edit win) (prefix_edit win) (prefix_edit_enabled win)
          (browse_btn_enabled win) (randomize_btn_enabled win)
          "An error occurred during the operation."
          (progress_value win) false (progress_text_visible win)
          (progress_format win) (worker win)),
   [critical "Error" ("An error occurred:" +:+ nl +:+ nl +:+ error_message)]).

(** The slot each signal of the worker is connected to in
    [process_folder]. *)
Definition deliver (s : signal) (win : window) : window * list dialog :=
  match s with
  | progress_update value message => (update_progress value message win, [])
  | finished result duration => on_randomization_finished result duration win
  | error message => on_randomization_error message win
  end.

(** The signals delivered in the order of emission. *)
Fixpoint deliver_all (ss : list signal) (win : window) : window * list dialog :=
  match ss with
  | [] => (win, [])
  | s :: ss' =>
      let '(win1, ds1) := deliver s win in
      let '(win2, ds2) := deliver_all ss' win1 in
      (win2, ds1 ++ ds2)
  end.

(** The signals of a log. *)
Fixpoint signals (t : list action) : list signal :=
  match t with
  | [] => []
  | Emit s :: t' => s :: signals t'
  | _ :: t' => signals t'
  end.

(** The application between two events: the window, the folder and the
    oracles' cursors, and the signals of the running worker that are still
    to be delivered. *)
Record app := App {
  app_window : window;
  app_world : world;
  app_pending : list signal
}.

(** What can happen: the user picks a folder, edits the prefix or clicks
    the randomize button, each only while the widget is enabled; a pending
    signal reaches its slot. A started worker runs in the environment [E]
    of that run. *)
Inductive step (pl : platform) (basename : string -> string) : app -> app -> Prop :=
  | step_browse folder_path a :
      browse_btn_enabled (app_window a) = true ->
      step pl basename a
        (App (select_folder basename folder_path (app_window a))
             (app_world a) (app_pending a))
  | step_edit text a :
      prefix_edit_enabled (app_window a) = true ->
      step pl basename a
        (App (let win := app_window a in
              Win (path_edit win) text (prefix_edit_enabled win)
                  (browse_btn_enabled win) (randomize_btn_enabled win)
                  (status_label win) (progress_value win) (progress_visible win)
                  (progress_text_visible win) (progress_format win) (worker win))
             (app_world a) (app_pending a))
  | step_randomize E isdir yes a :
      randomize_btn_enabled (app_window a) = true ->
      platform_of E = pl ->
      step pl basename a
        (let '(win, _, started) :=
           process_folder pl isdir (fs (app_world a)) yes (app_window a) in
         match started with
         | Some wk =>
             let '(_, w', t) := run E wk (app_world a) in
             App win w' (app_pending a ++ signals t)
         | None => App win (app_world a) (app_pending a)
         end)
  | step_deliver s ss a :
      app_pending a = s :: ss ->
      step pl basename a (App (deliver s (app_window a)).1 (app_world a) ss).

(** The states the application can be in, from the start on the world
    [w0]. *)
Inductive reachable (pl : platform) (basename : string -> string) (w0 : world)
    : app -> Prop :=
  | reachable_start : reachable pl basename w0 (App setup_ui w0 [])
  | reachable_step a b :
      reachable pl basename w0 a -> step pl basename a b ->
      reachable pl basename w0 b.

End Window.

(** ** Vocabulary of the further properties *)

(** The index of the last separator, as [splitext] computes it. *)
Definition sep_index (pl : platform) (p : string) : Z :=
  match altsep pl with
  | Some a => Z.max (rfind (sep pl) p) (rfind a p)
  | None => rfind (sep pl) p
  end.

(** A character that is a separator of the platform. *)
Definition is_sep (pl : platform) (c : ascii) : Prop :=
  c = sep pl \/ altsep pl = Some c.


(** The folder after a list of renames, each from the first name of a
    pair to the second. *)
Definition moves (ps : list (string * string)) (d : folder) : folder :=
  foldl (fun d p => move p.1 p.2 d) d ps.


(** The renames of the first loop on the files [l], the first UUID being
    the [n]-th one: from each file to its temporary name. *)
Definition phase1_pairs (E : env) (n : nat) (l : list string) : list (string * string) :=
  imap (fun j f => (f, "temp_" +:+ uuid_str E (n + j) +:+ ext (platform_of E) f)) l.

(** The renames of the second loop on the items [its] of [temp_names],
    counted from [k]: from each temporary name to the final name. *)
Definition phase2_pairs (pl : platform) (prefix : string) (k : nat)
    (its : list (string * string)) : list (string * string) :=
  imap (fun j it => (it.2, new_name pl prefix (k + j) it.1)) its.

(** All the renames a run means to do, in order. *)
Definition planned_renames (E : env) (self : RandomizerWorker) (w : world)
    : list (string * string) :=
  let ps := phase1_pairs E (n_uuid w) (plan_of E self w) in
  ps ++ phase2_pairs (platform_of E) (new_prefix self) 1 ps.

(** ** Proof automation *)

(** Membership in a list that is written out. *)
Ltac elem_of_list :=
  repeat first [apply list_elem_of_here | apply list_elem_of_further].

(** One step of a run whose list of files is written out: compute, and
    leave the outcome of [os.rename], the floats and the names alone. *)
Ltac run_step_in H :=
  cbn -[rename_failure PyFloat.round PyFloat.mul PyFloat.sub PyFloat.to_int move
        String.append fmt03d str_of_nat ext] in H.

(** * Properties *)

(** ** The model on examples *)

Example splitext_ex1 : splitext posix "a.tar.gz" = ("a.tar", ".gz").
Proof. reflexivity. Qed.

Example splitext_ex2 : splitext posix ".bashrc" = (".bashrc", EmptyString).
Proof. reflexivity. Qed.

Example splitext_ex3 : splitext posix "..a" = ("..a", EmptyString).
Proof. reflexivity. Qed.

Example splitext_ex4 : splitext posix "a." = ("a", ".").
Proof. reflexivity. Qed.

Example splitext_ex5 : splitext posix "x/.b.c" = ("x/.b", ".c").
Proof. reflexivity. Qed.

Example splitext_ex6 : splitext win32 "x.y\z" = ("x.y\z", EmptyString).
Proof. reflexivity. Qed.

Example fmt03d_ex : (fmt03d 7, fmt03d 42, fmt03d 1000, fmt03d 0) = ("007", "042", "1000", "000").
Proof. reflexivity. Qed.

Example lower_ex : lower ".JpEg" = ".jpeg".
Proof. reflexivity. Qed.

(** [round] agrees with the division and the multiplication of the
    Standard Library's model of binary64 numbers. *)
Example round_div_ex :
  Qred <$> SF2Q (SFdiv 53 1024 (SF_of_pos 29) (SF_of_pos 50)) = Some (round (29 # 50)).
Proof. vm_compute. reflexivity. Qed.

Example round_mul_ex :
  Qred <$> SF2Q (SFmul 53 1024 (SFdiv 53 1024 (SF_of_pos 29) (SF_of_pos 50)) (SF_of_pos 50))
  = Some (mul (round (29 # 50)) (of_int 50)).
Proof. vm_compute. reflexivity. Qed.

(** [int(29 / 50 * 50)] is 28: the product is just below 29. *)
Example half_percent_ex : half_percent 29 50 = 28%Z.
Proof. vm_compute. reflexivity. Qed.

Example get_image_files_ex :
  get_image_files posix Sample.photos ≡ₚ ["a.png"; "b.JPG"; "c.gif"].
Proof. vm_compute. by apply (bool_decide_unpack _). Qed.

Example progress_ex :
  progress_values (run Sample.calm Sample.worker Sample.start).2
  = [0; 16; 33; 50; 50; 66; 83; 100]%Z.
Proof. vm_compute. reflexivity. Qed.

(** ** Facts about strings *)

Section StringFacts.

Lemma append_inj_l (p a b : string) : p +:+ a = p +:+ b -> a = b.
Proof. induction p as [|c p IH]; simpl; [done|]. intros [= H]. auto. Qed.

Lemma rfind_from_spec c s i j :
  rfind_from c s i = Some j ->
  (i <= j)%nat /\ String.get (j - i) s = Some c.
Proof.
  revert i j. induction s as [|a s IH]; intros i j; simpl; [done|].
  destruct (rfind_from c s (S i)) as [j'|] eqn:Hr.
  - intros [= <-]. apply IH in Hr as [Hle Hget]. split; [lia|].
    replace (j' - i)%nat with (S (j' - S i)) by lia. done.
  - destruct (Ascii.eqb a c) eqn:Hac; [|done]. intros [= <-].
    apply Ascii.eqb_eq in Hac as ->. rewrite Nat.sub_diag. split; [lia|done].
Qed.

Lemma drop_str_get n s c :
  String.get n s = Some c -> exists s', drop_str n s = String c s'.
Proof.
  revert s. induction n as [|n IH]; intros [|a s]; simpl; try done.
  - intros [= ->]. eauto.
  - apply IH.
Qed.

(** An extension is empty or begins with a dot. *)
Lemma ext_shape pl p : ext pl p = EmptyString \/ exists s, ext pl p = String "."%char s.
Proof.
  unfold ext, splitext.
  set (sepIndex := match altsep pl with Some a => _ | None => _ end).
  assert (-1 <= sepIndex)%Z as Hsep.
  { subst sepIndex. unfold rfind.
    destruct (altsep pl); repeat case_match; lia. }
  destruct (_ && _) eqn:Hc; [|by left]. right. simpl.
  apply andb_prop in Hc as [Hlt _]. apply Z.ltb_lt in Hlt.
  unfold rfind in *. destruct (rfind_from extsep p 0) as [j|] eqn:Hj; [|lia].
  apply rfind_from_spec in Hj as [_ Hget]. rewrite Nat.sub_0_r in Hget.
  rewrite Nat2Z.id. by apply drop_str_get.
Qed.

Lemma digits_app a b : digits a -> digits b -> digits (a +:+ b).
Proof.
  induction a; simpl; [done|].
  rewrite !andb_True. intros [? ?] ?. auto.
Qed.

Lemma digits_string_of_uint d : digits (NilEmpty.string_of_uint d).
Proof. induction d; simpl; done. Qed.

Lemma digits_zeros n : digits (zeros n).
Proof. induction n; simpl; done. Qed.

Lemma digits_fmt03d n : digits (fmt03d n).
Proof. apply digits_app; [apply digits_zeros | apply digits_string_of_uint]. Qed.

(** A run of digits followed by an extension determines both. *)
Lemma digits_ext_inj a b e1 e2 :
  digits a -> digits b ->
  (e1 = EmptyString \/ exists s, e1 = String "."%char s) ->
  (e2 = EmptyString \/ exists s, e2 = String "."%char s) ->
  a +:+ e1 = b +:+ e2 -> a = b.
Proof.
  revert b. induction a as [|c a IH]; intros [|c' b]; simpl; try done.
  - intros _ Hd [->|[s ->]] _; [done|]. intros [= <- _]. done.
  - intros Hd _ _ [->|[s ->]]; [done|]. intros [= -> _]. done.
  - rewrite !andb_True. intros [_ Ha] [_ Hb] H1 H2 [= -> H]. f_equal. eauto.
Qed.

Lemma numeral_value_zeros k s : numeral_value (zeros k +:+ s) = numeral_value s.
Proof.
  induction k as [|k IH]; simpl; [done|]. rewrite <- IH.
  unfold numeral_value. simpl. by destruct (NilEmpty.uint_of_string _).
Qed.

Lemma numeral_value_fmt03d n : numeral_value (fmt03d n) = Some n.
Proof.
  unfold fmt03d. rewrite numeral_value_zeros. unfold numeral_value, str_of_nat.
  rewrite NilEmpty.usu. simpl. f_equal. apply Unsigned.of_to.
Qed.

Lemma fmt03d_inj i j : fmt03d i = fmt03d j -> i = j.
Proof.
  intros H. apply (f_equal numeral_value) in H.
  rewrite !numeral_value_fmt03d in H. congruence.
Qed.

(** The name [f"{prefix}{i:03d}{extension}"] determines [i]. *)
Lemma new_name_inj pl prefix i j f g :
  prefix +:+ fmt03d i +:+ ext pl f = prefix +:+ fmt03d j +:+ ext pl g -> i = j.
Proof.
  intros H. apply append_inj_l in H. apply fmt03d_inj.
  eapply digits_ext_inj; eauto using digits_fmt03d, ext_shape.
Qed.

End StringFacts.
(** ** Facts about floats *)

Section FloatFacts.
Local Open Scope Q_scope.

Lemma pow2_pos k : 0 < pow2 k.
Proof. apply Qpower_0_lt. reflexivity. Qed.

Lemma pow2_add a b : pow2 (a + b) == pow2 a * pow2 b.
Proof. apply Qpower_plus. discriminate. Qed.

Lemma pow2_le a b : (a <= b)%Z -> pow2 a <= pow2 b.
Proof. intros H. apply Qpower_le_compat_l; [done|]. discriminate. Qed.

Lemma pow2_Z a : (0 <= a)%Z -> inject_Z (2 ^ a) == pow2 a.
Proof. intros H. by rewrite Zpower_Qpower. Qed.

Lemma pow2_succ a : pow2 (a + 1) == 2 * pow2 a.
Proof. rewrite pow2_add. unfold pow2 at 2. simpl. ring. Qed.

(** [ilog2 x] is the exponent of the binade of [x]. *)
Lemma ilog2_spec x : 0 < x -> pow2 (ilog2 x) <= x /\ x < pow2 (ilog2 x + 1).
Proof.
  intros Hx. destruct x as [n d].
  assert (0 < n)%Z as Hn by (unfold Qlt in Hx; simpl in Hx; lia).
  unfold ilog2. cbn [Qnum Qden].
  set (a := Z.log2 n). set (b := Z.log2 (Z.pos d)).
  pose proof (Z.log2_spec n Hn) as [Ha1 Ha2]. fold a in Ha1, Ha2.
  pose proof (Z.log2_spec (Z.pos d) eq_refl) as [Hb1 Hb2]. fold b in Hb1, Hb2.
  pose proof (Z.log2_nonneg n) as Ha0. fold a in Ha0.
  pose proof (Z.log2_nonneg (Z.pos d)) as Hb0. fold b in Hb0.
  rewrite Zle_Qle, pow2_Z in Ha1, Hb1 by lia.
  rewrite Zlt_Qlt, pow2_Z in Ha2, Hb2 by lia.
  unfold Z.succ in Ha2, Hb2.
  assert (0 < inject_Z (Z.pos d)) as Hd by done.
  assert (n # d == inject_Z n / inject_Z (Z.pos d)) as Hnd by apply Qmake_Qdiv.
  destruct (Qle_bool (pow2 (a - b)) (n # d)) eqn:Hc.
  - apply Qle_bool_iff in Hc. split; [done|].
    rewrite Hnd. apply Qlt_shift_div_r; [done|].
    eapply Qlt_le_trans; [apply Ha2|].
    replace (a + 1)%Z with ((a - b + 1) + b)%Z by lia. rewrite pow2_add.
    apply Qmult_le_l; [apply pow2_pos | done].
  - assert (n # d < pow2 (a - b)) as Hlt.
    { apply Qnot_le_lt. intros H. apply Qle_bool_iff in H. congruence. }
    split.
    + rewrite Hnd. apply Qle_shift_div_l; [done|].
      eapply Qle_trans; [|apply Ha1]. apply Qlt_le_weak.
      replace a with ((a - b - 1) + (b + 1))%Z at 2 by lia. rewrite pow2_add.
      apply Qmult_lt_l; [apply pow2_pos | done].
    + by replace (a - b - 1 + 1)%Z with (a - b)%Z by lia.
Qed.

Lemma binade_mono x y k j :
  pow2 k <= x -> y < pow2 (j + 1) -> x <= y -> (k <= j)%Z.
Proof.
  intros Hk Hj Hxy.
  assert (pow2 k < pow2 (j + 1)) as H.
  { eapply Qle_lt_trans; [|apply Hj]. eapply Qle_trans; eauto. }
  apply Qpower_lt_compat_l_inv in H; [lia | reflexivity].
Qed.

Lemma ilog2_mono x y : 0 < x -> x <= y -> (ilog2 x <= ilog2 y)%Z.
Proof.
  intros Hx Hxy.
  assert (0 < y) as Hy by (eapply Qlt_le_trans; eauto).
  destruct (ilog2_spec x Hx) as [H1 _], (ilog2_spec y Hy) as [_ H2].
  eapply binade_mono; eauto.
Qed.

Lemma ilog2_unique x k : pow2 k <= x -> x < pow2 (k + 1) -> ilog2 x = k.
Proof.
  intros H1 H2.
  assert (0 < x) as Hx by (eapply Qlt_le_trans; [apply (pow2_pos k)|done]).
  destruct (ilog2_spec x Hx) as [H3 H4].
  pose proof (binade_mono x x k (ilog2 x) H1 H4 (Qle_refl _)).
  pose proof (binade_mono x x (ilog2 x) k H3 H2 (Qle_refl _)). lia.
Qed.

Lemma ilog2_comp x y : 0 < x -> x == y -> ilog2 x = ilog2 y.
Proof.
  intros Hx Hxy. destruct (ilog2_spec x Hx) as [H1 H2].
  symmetry. apply ilog2_unique; by rewrite <- Hxy.
Qed.

Lemma round_half_even_comp t u : t == u -> round_half_even t = round_half_even u.
Proof.
  intros H. unfold round_half_even. rewrite (Qfloor_comp _ _ H).
  assert (t - inject_Z (Qfloor u) == u - inject_Z (Qfloor u)) as -> by by rewrite H.
  done.
Qed.

Lemma round_half_even_bounds t :
  (Qfloor t <= round_half_even t <= Qfloor t + 1)%Z.
Proof. unfold round_half_even. repeat case_match; lia. Qed.

Lemma round_half_even_Z z : round_half_even (inject_Z z) = z.
Proof.
  unfold round_half_even. rewrite Qfloor_Z.
  assert (inject_Z z - inject_Z z == 0) as -> by ring. done.
Qed.

Lemma round_half_even_mono t u : t <= u -> (round_half_even t <= round_half_even u)%Z.
Proof.
  intros H. pose proof (Qfloor_resp_le _ _ H) as Hf.
  pose proof (round_half_even_bounds t). pose proof (round_half_even_bounds u).
  destruct (decide (Qfloor t = Qfloor u)) as [Heq|]; [|lia].
  unfold round_half_even. rewrite Heq.
  destruct (Qcompare_spec (t - inject_Z (Qfloor u)) (1 # 2)) as [E1|E1|E1];
    destruct (Qcompare_spec (u - inject_Z (Qfloor u)) (1 # 2)) as [E2|E2|E2];
    try case_match; try lia; lra.
Qed.

Lemma ulp_exp_mono x y : 0 < x -> x <= y -> (ulp_exp x <= ulp_exp y)%Z.
Proof. intros Hx Hxy. unfold ulp_exp. pose proof (ilog2_mono x y Hx Hxy). lia. Qed.

Lemma scaled_lt x : 0 < x -> x / pow2 (ulp_exp x) < pow2 prec.
Proof.
  intros Hx. apply Qlt_shift_div_r; [apply pow2_pos|].
  rewrite <- pow2_add. destruct (ilog2_spec x Hx) as [_ H].
  eapply Qlt_le_trans; [apply H|]. apply pow2_le. unfold ulp_exp, prec. lia.
Qed.

(** [round_pos x] stays within the binade of [x]. *)
Lemma round_pos_upper x : 0 < x -> round_pos x <= pow2 (ulp_exp x + prec).
Proof.
  intros Hx. unfold round_pos. rewrite Z.add_comm, pow2_add.
  apply Qmult_le_r; [apply pow2_pos|].
  rewrite <- (pow2_Z prec) by done. rewrite <- Zle_Qle.
  rewrite <- (round_half_even_Z (2 ^ prec)). apply round_half_even_mono.
  rewrite pow2_Z by done. apply Qlt_le_weak. by apply scaled_lt.
Qed.

Lemma round_pos_lower x :
  0 < x -> (emin < ulp_exp x)%Z -> pow2 (ulp_exp x + (prec - 1)) <= round_pos x.
Proof.
  intros Hx He. unfold round_pos. rewrite Z.add_comm, pow2_add.
  apply Qmult_le_r; [apply pow2_pos|].
  rewrite <- (pow2_Z (prec - 1)) by done. rewrite <- Zle_Qle.
  etrans; [|apply round_half_even_bounds].
  rewrite <- (Qfloor_Z (2 ^ (prec - 1))). apply Qfloor_resp_le.
  rewrite pow2_Z by done. apply Qle_shift_div_l; [apply pow2_pos|].
  rewrite <- pow2_add. destruct (ilog2_spec x Hx) as [H _].
  eapply Qle_trans; [|apply H]. apply pow2_le. unfold ulp_exp, prec in *. lia.
Qed.

Lemma round_pos_nonneg x : 0 < x -> 0 <= round_pos x.
Proof.
  intros Hx. unfold round_pos. apply Qmult_le_0_compat; [|apply Qlt_le_weak, pow2_pos].
  replace 0 with (inject_Z 0) by done. rewrite <- Zle_Qle.
  etrans; [|apply round_half_even_bounds].
  rewrite <- (Qfloor_Z 0). apply Qfloor_resp_le.
  apply Qle_shift_div_l; [apply pow2_pos|].
  change (inject_Z 0) with 0. rewrite Qmult_0_l. by apply Qlt_le_weak.
Qed.

Lemma round_pos_mono x y : 0 < x -> x <= y -> round_pos x <= round_pos y.
Proof.
  intros Hx Hxy.
  assert (0 < y) as Hy by (eapply Qlt_le_trans; eauto).
  pose proof (ulp_exp_mono x y Hx Hxy) as He.
  destruct (decide (ulp_exp x = ulp_exp y)) as [Heq|Hne].
  - unfold round_pos. rewrite Heq.
    apply Qmult_le_r; [apply pow2_pos|]. rewrite <- Zle_Qle.
    apply round_half_even_mono. apply Qmult_le_r; [apply Qinv_lt_0_compat, pow2_pos|done].
  - eapply Qle_trans; [by apply round_pos_upper|].
    eapply Qle_trans; [|apply round_pos_lower; [done|unfold ulp_exp in *; lia]].
    apply pow2_le. unfold prec. lia.
Qed.

Lemma round_pos_comp x y : 0 < x -> x == y -> round_pos x == round_pos y.
Proof.
  intros Hx Hxy. unfold round_pos, ulp_exp. rewrite (ilog2_comp x y Hx Hxy).
  erewrite round_half_even_comp; [reflexivity|]. by rewrite Hxy.
Qed.

Lemma round_nonneg x : 0 <= x -> 0 <= round x.
Proof.
  intros Hx. unfold round. destruct (Qcompare_spec x 0) as [H|H|H].
  - done.
  - lra.
  - rewrite Qred_correct. by apply round_pos_nonneg.
Qed.

(** Rounding is monotone. *)
Lemma round_mono x y : 0 <= x -> x <= y -> round x <= round y.
Proof.
  intros Hx Hxy. unfold round at 1. destruct (Qcompare_spec x 0) as [H|H|H].
  - apply round_nonneg. lra.
  - lra.
  - unfold round. destruct (Qcompare_spec y 0) as [H'|H'|H']; try lra.
    rewrite !Qred_correct. by apply round_pos_mono.
Qed.

Lemma round_comp x y : x == y -> round x == round y.
Proof.
  intros Hxy. unfold round. rewrite <- Hxy.
  destruct (Qcompare_spec x 0) as [H|H|H]; [done| |].
  - rewrite !Qred_correct. apply Qopp_comp, round_pos_comp; lra.
  - rewrite !Qred_correct. by apply round_pos_comp.
Qed.

Lemma to_int_mono x y : 0 <= x -> x <= y -> (to_int x <= to_int y)%Z.
Proof.
  intros Hx Hxy. unfold to_int.
  assert (Qle_bool 0 x = true) as -> by by apply Qle_bool_iff.
  assert (Qle_bool 0 y = true) as -> by (apply Qle_bool_iff; lra).
  by apply Qfloor_resp_le.
Qed.

Lemma to_int_comp x y : x == y -> to_int x = to_int y.
Proof.
  intros H. unfold to_int, Qceiling.
  assert (Qle_bool 0 x = Qle_bool 0 y) as ->.
  { apply eq_true_iff_eq. rewrite !Qle_bool_iff. by rewrite H. }
  rewrite (Qfloor_comp x y H). rewrite (Qfloor_comp (- x) (- y)); [done|by rewrite H].
Qed.

Lemma inject_nat_nonneg i : 0 <= inject_Z (Z.of_nat i).
Proof. change 0 with (inject_Z 0). rewrite <- Zle_Qle. lia. Qed.

Lemma ratio_nonneg i n : 0 <= inject_Z (Z.of_nat i) / inject_Z (Z.of_nat n).
Proof.
  apply Qmult_le_0_compat; [apply inject_nat_nonneg|].
  apply Qinv_le_0_compat, inject_nat_nonneg.
Qed.

Lemma ratio_mono i j n :
  (i <= j)%nat ->
  inject_Z (Z.of_nat i) / inject_Z (Z.of_nat n) <= inject_Z (Z.of_nat j) / inject_Z (Z.of_nat n).
Proof.
  intros H. unfold Qdiv.
  assert (0 <= / inject_Z (Z.of_nat n)) as Hn by apply Qinv_le_0_compat, inject_nat_nonneg.
  assert (inject_Z (Z.of_nat i) <= inject_Z (Z.of_nat j)) by (rewrite <- Zle_Qle; lia).
  nra.
Qed.

Lemma half_percent_nonneg i n : (0 <= half_percent i n)%Z.
Proof.
  unfold half_percent, mul, to_int, of_int.
  pose proof (round_nonneg _ (ratio_nonneg i n)) as Hq.
  set (q := round (_ / _)) in *.
  assert (0 <= round (q * inject_Z 50)) as H.
  { apply round_nonneg. change (inject_Z 50) with (50 # 1). lra. }
  pose proof H as ->%Qle_bool_iff.
  rewrite <- (Qfloor_Z 0). by apply Qfloor_resp_le.
Qed.

(** The percentage grows with the number of files done. *)
Lemma half_percent_mono i j n :
  (i <= j)%nat -> (half_percent i n <= half_percent j n)%Z.
Proof.
  intros Hij. unfold half_percent, mul, of_int.
  pose proof (round_nonneg _ (ratio_nonneg i n)) as Hq.
  pose proof (round_mono _ _ (ratio_nonneg i n) (ratio_mono i j n Hij)) as Hm.
  set (qi := round (_ / _)) in *. set (qj := round (_ / _)) in *.
  change (inject_Z 50) with (50 # 1).
  apply to_int_mono; [apply round_nonneg; lra|].
  apply round_mono; lra.
Qed.

(** All files done is exactly fifty. *)
Lemma half_percent_all n : n <> 0%nat -> half_percent n n = 50%Z.
Proof.
  intros Hn. unfold half_percent, mul, of_int.
  assert (inject_Z (Z.of_nat n) / inject_Z (Z.of_nat n) == 1) as H1.
  { apply Qmult_inv_r. change 0 with (inject_Z 0). rewrite inject_Z_injective. lia. }
  pose proof (round_comp _ _ H1) as H2.
  assert (round 1 = 1) as E1 by (vm_compute; reflexivity). rewrite E1 in H2.
  assert (round (round (inject_Z (Z.of_nat n) / inject_Z (Z.of_nat n)) * inject_Z 50)
          == round 50) as H3 by (apply round_comp; rewrite H2; reflexivity).
  rewrite (to_int_comp _ _ H3). vm_compute. reflexivity.
Qed.

Lemma half_percent_le i n : (i <= n)%nat -> n <> 0%nat -> (half_percent i n <= 50)%Z.
Proof. intros Hi Hn. rewrite <- (half_percent_all n Hn). by apply half_percent_mono. Qed.

End FloatFacts.
(** ** Facts about logs and dictionaries *)

Section LogFacts.

Lemma progress_values_app t1 t2 :
  progress_values (t1 ++ t2) = progress_values t1 ++ progress_values t2.
Proof.
  induction t1 as [|[[]|] t1 IH]; simpl; rewrite ?IH; done.
Qed.

Lemma renames_app t1 t2 : renames (t1 ++ t2) = renames t1 ++ renames t2.
Proof. induction t1 as [|[] t1 IH]; simpl; rewrite ?IH; done. Qed.

Lemma replay_app t1 t2 d : replay (t1 ++ t2) d = replay t2 (replay t1 d).
Proof.
  revert d. induction t1 as [|[|? ? []] t1 IH]; intros d; simpl; rewrite ?IH; done.
Qed.

Lemma ok_action_not_terminal a : ok_action a -> is_terminal a = false.
Proof. by destruct a as [[]|? ? []]. Qed.

Lemma ok_action_not_failed a : ok_action a -> failed_rename a = false.
Proof. by destruct a as [[]|? ? []]. Qed.

Lemma aborted_app e t1 t2 : Forall ok_action t1 -> aborted e t2 -> aborted e (t1 ++ t2).
Proof.
  intros H1 (pre & s & d & -> & H2). exists (t1 ++ pre), s, d.
  split; [by rewrite app_assoc | by apply Forall_app].
Qed.

End LogFacts.

Section DictFacts.

Lemma keys_set k v d : keys (PyDict.set k v d) = add_key (keys d) k.
Proof.
  unfold keys, add_key. induction d as [|[k' v'] d IH]; [done|].
  cbn [PyDict.set]. destruct (String.eqb k' k) eqn:Hk.
  - apply String.eqb_eq in Hk as ->. rewrite !fmap_cons. cbn [fst].
    by rewrite decide_True by by left.
  - apply String.eqb_neq in Hk. rewrite !fmap_cons, IH. cbn [fst].
    destruct (decide (k ∈ d.*1)) as [Hin|Hin];
      destruct (decide (k ∈ k' :: d.*1)) as [Hin'|Hin']; try done.
    + destruct Hin'. by right.
    + apply elem_of_cons in Hin' as [?|?]; congruence.
Qed.

Lemma set_fresh k v d : k ∉ keys d -> PyDict.set k v d = d ++ [(k, v)].
Proof.
  unfold keys. induction d as [|[k' v'] d IH]; simpl; [done|].
  rewrite not_elem_of_cons. intros [Hne Hin].
  destruct (String.eqb k' k) eqn:Hk; [apply String.eqb_eq in Hk; congruence|].
  by rewrite IH.
Qed.

Lemma add_key_NoDup ks k : NoDup ks -> NoDup (add_key ks k).
Proof.
  intros H. unfold add_key. case_decide; [done|].
  apply NoDup_app. split_and!; [done| |apply NoDup_singleton].
  intros x Hx ->%list_elem_of_singleton. done.
Qed.

Lemma foldl_add_key_NoDup l ks : NoDup ks -> NoDup (foldl add_key ks l).
Proof. revert ks. induction l; simpl; auto using add_key_NoDup. Qed.

Lemma foldl_add_key_fresh l ks : NoDup (ks ++ l) -> foldl add_key ks l = ks ++ l.
Proof.
  revert ks. induction l as [|k l IH]; intros ks H; simpl; [by rewrite app_nil_r|].
  assert (k ∉ ks) as Hk.
  { apply NoDup_app in H as (_ & H & _). intros Hin. apply (H k Hin). by left. }
  unfold add_key at 2. rewrite decide_False by done.
  rewrite IH; rewrite <- app_assoc; done.
Qed.

Lemma foldl_add_key_length l ks : length (foldl add_key ks l) <= length ks + length l.
Proof.
  revert ks. induction l as [|k l IH]; intros ks; simpl; [lia|].
  etrans; [apply IH|]. unfold add_key. case_decide; rewrite ?length_app; simpl; lia.
Qed.

Lemma foldl_assign_fresh pl prefix items k fn :
  NoDup (keys fn ++ keys items) ->
  foldl (assign pl prefix) fn (enumerate k items)
  = fn ++ imap (fun i f => (f, new_name pl prefix (k + i) f)) (keys items).
Proof.
  revert k fn. induction items as [|[o tmp] items IH]; intros k fn H; simpl.
  { by rewrite app_nil_r. }
  unfold keys in *. simpl in H.
  assert (o ∉ fn.*1) as Ho.
  { apply NoDup_app in H as (_ & H & _). intros Hin. apply (H o Hin). by left. }
  unfold assign at 2. simpl. rewrite set_fresh by done.
  rewrite IH.
  - rewrite <- app_assoc. simpl. rewrite Nat.add_0_r. do 2 f_equal.
    apply imap_ext. intros i f _. simpl. do 2 f_equal. lia.
  - rewrite fmap_app. simpl. by rewrite <- app_assoc.
Qed.

Lemma keys_numbered pl prefix ks : keys (numbered pl prefix ks) = ks.
Proof.
  unfold keys, numbered. rewrite fmap_imap.
  etrans; [|apply (list_fmap_id ks)]. rewrite <- imap_const. done.
Qed.

Lemma numbered_lookup pl prefix ks i f :
  ks !! i = Some f -> numbered pl prefix ks !! i = Some (f, new_name pl prefix (S i) f).
Proof. intros H. unfold numbered. by rewrite list_lookup_imap, H. Qed.

(** The names of a numbered list are pairwise distinct. *)
Lemma values_numbered_NoDup pl prefix ks : NoDup (values (numbered pl prefix ks)).
Proof.
  apply NoDup_alt. intros i j x Hi Hj.
  unfold values, numbered in *. rewrite list_lookup_fmap, list_lookup_imap in Hi, Hj.
  destruct (ks !! i) as [f|]; [|done]. destruct (ks !! j) as [g|]; [|done].
  simpl in *. injection Hi as <-. injection Hj as Hj.
  apply new_name_inj in Hj. lia.
Qed.

End DictFacts.
(** ** Facts about the execution monad and the two loops *)

Section ExecFacts.
Local Open Scope py_scope.

Lemma bind_inv {A B} (m : M A) (f : A -> M B) w r w' t :
  bind m f w = (r, w', t) ->
  (exists a w1 t1 t2,
      m w = (Return a, w1, t1) /\ f a w1 = (r, w', t2) /\ t = t1 ++ t2)
  \/ (exists e, m w = (Raise e, w', t) /\ r = Raise e).
Proof.
  unfold bind. destruct (m w) as [[[a|e] w1] t1].
  - destruct (f a w1) as [[r2 w2] t2] eqn:Hf. intros [= <- <- <-].
    left. by exists a, w1, t1, t2.
  - intros [= <- <- <-]. right. by exists e.
Qed.

Lemma swap_Permutation {A} (x : list A) i j : swap x i j ≡ₚ x.
Proof.
  unfold swap. destruct (x !! i) eqn:Hi; [|done]. destruct (x !! j) eqn:Hj; [|done].
  by apply Permutation_insert_swap.
Qed.

(** The shuffle returns a permutation, raises nothing, emits nothing, and
    reads nothing of the world but the cursor of the random source. *)
Lemma shuffle_from_spec {A} E i (x : list A) (n : nat) :
  exists l, l ≡ₚ x /\
    forall w, n_random w = n ->
      shuffle_from E i x w
      = (Return l, World (fs w) (n_rename w) (n_uuid w) (n_random w + i) (n_clock w), []).
Proof.
  revert x n. induction i as [|i IH]; intros x n.
  - exists x. split; [done|]. intros [] _. simpl. by rewrite Nat.add_0_r.
  - destruct (IH (swap x (S i) (random_draw E n mod (S i + 1))) (S n)) as (l & Hp & Hl).
    exists l. split; [by rewrite Hp, swap_Permutation|].
    intros w Hw. cbn [shuffle_from]. unfold bind, randbelow. rewrite Hw.
    rewrite Hl by done. simpl. by rewrite Nat.add_succ_r.
Qed.

Lemma random_shuffle_plan E self w :
  random_shuffle E (image_files self) w
  = (Return (plan_of E self w),
     World (fs w) (n_rename w) (n_uuid w)
           (n_random w + (length (image_files self) - 1)) (n_clock w), []).
Proof.
  unfold plan_of, random_shuffle.
  destruct (shuffle_from_spec E (length (image_files self) - 1) (image_files self)
              (n_random w)) as (l & _ & Hl).
  by rewrite Hl.
Qed.

Lemma plan_of_Permutation E self w : plan_of E self w ≡ₚ image_files self.
Proof.
  unfold plan_of, random_shuffle.
  destruct (shuffle_from_spec E (length (image_files self) - 1) (image_files self)
              (n_random w)) as (l & Hp & Hl).
  by rewrite Hl.
Qed.

Lemma plan_of_cursor E self w1 w2 :
  n_random w1 = n_random w2 -> plan_of E self w1 = plan_of E self w2.
Proof.
  intros H. unfold plan_of, random_shuffle.
  destruct (shuffle_from_spec E (length (image_files self) - 1) (image_files self)
              (n_random w1)) as (l & Hp & Hl).
  by rewrite !Hl.
Qed.

Lemma plan_of_length E self w : length (plan_of E self w) = length (image_files self).
Proof. by rewrite plan_of_Permutation. Qed.

Lemma phase1_body_cases E N i f tn w r w' t :
  N <> 0%nat ->
  phase1_body E N (i, f) tn w = (r, w', t) ->
  fs w' = replay t (fs w) /\
  exists tmp,
    match r with
    | Return tn' =>
        tn' = PyDict.set f tmp tn /\
        exists msg,
          t = [Rename f tmp None; Emit (progress_update (half_percent (i + 1) N) msg)]
    | Raise e => t = [Rename f tmp (Some e)]
    end.
Proof.
  intros HN. apply Nat.eqb_neq in HN.
  unfold phase1_body, bind, uuid4, os_rename, truediv, emit, ret. simpl.
  rewrite HN.
  destruct (rename_failure _ _ _ _) as [e|]; simpl; intros [= <- <- <-];
    (split; [done|]); eexists; [done|]. split; [done|]. by eexists.
Qed.

Lemma phase2_body_cases E self N i o tmp fn w r w' t :
  N <> 0%nat ->
  phase2_body E self N (i, (o, tmp)) fn w = (r, w', t) ->
  fs w' = replay t (fs w) /\
  match r with
  | Return fn' =>
      fn' = PyDict.set o (new_name (platform_of E) (new_prefix self) i o) fn /\
      exists msg,
        t = [Rename tmp (new_name (platform_of E) (new_prefix self) i o) None;
             Emit (progress_update (50 + half_percent i N) msg)]
  | Raise e => t = [Rename tmp (new_name (platform_of E) (new_prefix self) i o) (Some e)]
  end.
Proof.
  intros HN. apply Nat.eqb_neq in HN.
  unfold phase2_body, bind, uuid4, os_rename, truediv, emit, ret. simpl.
  rewrite HN.
  destruct (rename_failure _ _ _ _) as [e|]; simpl; intros [= <- <- <-];
    (split; [done|]); [done|]. split; [done|]. by eexists.
Qed.

Lemma phase1_loop E N :
  N <> 0%nat ->
  forall l k tn w r w' t,
    for_each (enumerate k l) (phase1_body E N) tn w = (r, w', t) ->
    fs w' = replay t (fs w) /\
    progress_values t `prefix_of` ((fun i => half_percent i N) <$> seq (S k) (length l)) /\
    match r with
    | Return tn' =>
        Forall ok_action t /\
        keys tn' = foldl add_key (keys tn) l /\
        progress_values t = (fun i => half_percent i N) <$> seq (S k) (length l)
    | Raise e => aborted e t
    end.
Proof.
  intros HN. induction l as [|f l IH]; intros k tn w r w' t H.
  - injection H as <- <- <-. split; [done|]. split; [apply prefix_nil|]. done.
  - cbn [enumerate for_each] in H.
    apply bind_inv in H as [(tn1 & w1 & t1 & t2 & Hb & Hrest & ->) | (e & Hb & ->)].
    + apply phase1_body_cases in Hb as (Hfs1 & tmp & -> & msg & ->); [|done].
      apply IH in Hrest as (Hfs & Hpre & Hr).
      rewrite replay_app, <- Hfs1. split; [done|].
      cbn [length seq fmap list_fmap app progress_values]. rewrite Nat.add_1_r.
      split; [by apply prefix_cons|].
      destruct r as [tn'|e].
      * destruct Hr as (Hok & Hk & Hv). split_and!.
        -- by repeat constructor.
        -- by rewrite Hk, keys_set.
        -- by rewrite Hv.
      * apply (aborted_app _ [_; _]); [by repeat constructor | done].
    + apply phase1_body_cases in Hb as (Hfs1 & tmp & ->); [|done].
      split; [done|]. split; [apply prefix_nil|]. by exists [], f, tmp.
Qed.

Lemma phase2_loop E self N :
  N <> 0%nat ->
  forall its k fn w r w' t,
    for_each (enumerate k its) (phase2_body E self N) fn w = (r, w', t) ->
    fs w' = replay t (fs w) /\
    progress_values t
      `prefix_of` ((fun i => (50 + half_percent i N)%Z) <$> seq k (length its)) /\
    match r with
    | Return fn' =>
        Forall ok_action t /\
        fn' = foldl (assign (platform_of E) (new_prefix self)) fn (enumerate k its) /\
        progress_values t = (fun i => (50 + half_percent i N)%Z) <$> seq k (length its)
    | Raise e => aborted e t
    end.
Proof.
  intros HN. induction its as [|[o tmp] its IH]; intros k fn w r w' t H.
  - injection H as <- <- <-. split; [done|]. split; [apply prefix_nil|]. done.
  - cbn [enumerate for_each] in H.
    apply bind_inv in H as [(fn1 & w1 & t1 & t2 & Hb & Hrest & ->) | (e & Hb & ->)].
    + apply phase2_body_cases in Hb as (Hfs1 & -> & msg & ->); [|done].
      apply IH in Hrest as (Hfs & Hpre & Hr).
      rewrite replay_app, <- Hfs1. split; [done|].
      cbn [length seq fmap list_fmap app progress_values].
      split; [by apply prefix_cons|].
      destruct r as [fn'|e].
      * destruct Hr as (Hok & Hk & Hv). split_and!.
        -- by repeat constructor.
        -- by rewrite Hk.
        -- by rewrite Hv.
      * apply (aborted_app _ [_; _]); [by repeat constructor | done].
    + apply phase2_body_cases in Hb as (Hfs1 & ->); [|done].
      split; [done|]. split; [apply prefix_nil|]. by eexists [], tmp, _.
Qed.

End ExecFacts.
(** ** The shape of a run *)

Section RunFacts.
Local Open Scope py_scope.

Lemma seq_prefix j n m : (n <= m)%nat -> seq j n `prefix_of` seq j m.
Proof.
  intros H. exists (seq (j + n) (m - n)). rewrite <- seq_app. f_equal. lia.
Qed.

Lemma fmap_prefix {A B} (f : A -> B) l1 l2 : l1 `prefix_of` l2 -> f <$> l1 `prefix_of` f <$> l2.
Proof. intros [k ->]. exists (f <$> k). apply fmap_app. Qed.

Lemma keys_length (d : dict) : length (keys d) = length d.
Proof. apply length_fmap. Qed.

(** What the [try] block of [run] does, whatever the environment. *)
Lemma run_try_spec E self w r w' t :
  run_try E self w = (r, w', t) ->
  fs w' = replay t (fs w) /\
  progress_values t `prefix_of` full_progress (length (image_files self)) /\
  match r with
  | Return (tn, fn) =>
      keys tn = foldl add_key [] (plan_of E self w) /\
      fn = numbered (platform_of E) (new_prefix self) (keys tn) /\
      (exists pre d, t = pre ++ [Emit (finished fn d)] /\ Forall ok_action pre) /\
      (NoDup (image_files self) ->
       progress_values t = full_progress (length (image_files self)))
  | Raise e => aborted e t
  end.
Proof.
  unfold run_try. intros H.
  apply bind_inv in H as [(t0 & w1 & ? & ? & H1 & H & ->)|(e & H1 & _)]; [|done].
  injection H1 as <- <- <-.
  apply bind_inv in H as [(plan & w2 & ? & ? & H2 & H & ->)|(e & H2 & _)];
    [|by rewrite random_shuffle_plan in H2].
  rewrite random_shuffle_plan in H2. injection H2 as Hplan <- <-.
  rewrite (plan_of_cursor E self _ w) in Hplan by done.
  assert (length plan = length (image_files self)) as Hlen
    by (rewrite <- Hplan; apply plan_of_length).
  assert (NoDup (image_files self) -> NoDup plan) as Hnd.
  { intros Hd. rewrite <- Hplan. by rewrite plan_of_Permutation. }
  rewrite Hplan. rewrite <- Hlen. clear Hplan Hlen. set (N := length plan) in *.
  apply bind_inv in H as [(? & w3 & ? & ? & H3 & H & ->)|(e & H3 & _)]; [|done].
  injection H3 as <- <- <-.
  destruct (decide (N = 0%nat)) as [HN|HN].
  { (* no file: both loops are empty *)
    subst N. apply length_zero_iff_nil in HN as ->. simpl in H.
    injection H as <- <- <-. simpl. split; [done|]. split; [reflexivity|].
    split_and!; try done. eexists [_; _], _. split; [done|]. by repeat constructor. }
  apply bind_inv in H as [(tn & w4 & t4 & ? & H4 & H & ->)|(e & H4 & ->)].
  2:{ apply phase1_loop in H4 as (Hfs & Hpre & Hab); [|done]. simpl.
      split; [done|]. split.
      - apply prefix_cons. by apply prefix_app_r.
      - by apply (aborted_app _ [_]); [repeat constructor|]. }
  apply phase1_loop in H4 as (Hfs4 & _ & Hok4 & Hk & Hv4); [|done].
  cbn [fs] in Hfs4.
  apply bind_inv in H as [(? & w5 & ? & ? & H5 & H & ->)|(e & H5 & _)]; [|done].
  injection H5 as <- <- <-.
  assert (length tn <= N)%nat as HtnN.
  { rewrite <- keys_length, Hk. etrans; [apply foldl_add_key_length|]. simpl. lia. }
  assert (NoDup (keys tn)) as Hktn.
  { rewrite Hk. apply foldl_add_key_NoDup, NoDup_nil_2. }
  apply bind_inv in H as [(fn & w6 & t6 & ? & H6 & H & ->)|(e & H6 & ->)].
  2:{ apply phase2_loop in H6 as (Hfs & Hpre & Hab); [|done].
      rewrite !app_nil_l. split; [|split].
      - rewrite !replay_app. simpl. by rewrite <- Hfs4.
      - rewrite !progress_values_app, Hv4. simpl.
        apply prefix_cons, prefix_app, prefix_cons. etrans; [apply Hpre|].
        apply fmap_prefix, seq_prefix. by unfold PyDict.items.
      - apply (aborted_app _ [_]); [by repeat constructor|].
        apply aborted_app; [done|]. by apply (aborted_app _ [_]); [repeat constructor|]. }
  apply phase2_loop in H6 as (Hfs6 & _ & Hok6 & Hfn & Hv6); [|done].
  unfold bind, time_time, emit, ret in H. simpl in H. injection H as <- <- <-.
  rewrite !app_nil_l.
  assert (fn = numbered (platform_of E) (new_prefix self) (keys tn)) as Hnum.
  { rewrite Hfn. unfold PyDict.items. by rewrite foldl_assign_fresh. }
  assert (forall d,
    progress_values ([Emit (progress_update 0 "Phase 1/2: Preparing files...")] ++ t4
      ++ [Emit (progress_update 50 "Phase 2/2: Finalizing names...")] ++ t6
      ++ [Emit (finished fn d)])
    = 0%Z :: ((fun i => half_percent i N) <$> seq 1 N)
        ++ 50%Z :: ((fun i => (50 + half_percent i N)%Z) <$> seq 1 (length tn))) as Hpv.
  { intros d. rewrite !progress_values_app, Hv4, Hv6. simpl. by rewrite app_nil_r. }
  cbn [fs]. split; [|split; [|split_and!]].
  - rewrite !replay_app. simpl. by rewrite <- Hfs4, <- Hfs6.
  - rewrite Hpv. apply prefix_cons, prefix_app, prefix_cons.
    by apply fmap_prefix, seq_prefix.
  - done.
  - done.
  - eexists (_ :: _ ++ _ :: _), _. split.
    + simpl. rewrite <- app_assoc. simpl. done.
    + constructor; [done|]. apply Forall_app. split; [done|]. by constructor.
  - intros Hd. rewrite Hpv. unfold full_progress. do 4 f_equal.
    rewrite <- keys_length, Hk. simpl. by rewrite foldl_add_key_fresh by (by apply Hnd).
Qed.

(** [run] catches whatever the [try] block raises. *)
Lemma run_unfold E self w :
  run E self w =
  match run_try E self w with
  | (Return _, w', t) => (Return tt, w', t)
  | (Raise e, w', t) => (Return tt, w', t ++ [Emit (error (PyExn.str e))])
  end.
Proof.
  unfold run, try_except, bind, ret, emit.
  destruct (run_try E self w) as [[[a|e] w'] t]; [by rewrite app_nil_r | done].
Qed.

End RunFacts.
(** ** The two ways a run ends *)

Section RunCases.

(** Every run returns normally, and ends either with [finished], after
    signals of progress and renames that all went through, or with
    [error], right after the one rename that failed. *)
Lemma run_cases E self w :
  exists w' t,
    run E self w = (Return tt, w', t) /\
    fs w' = replay t (fs w) /\
    progress_values t `prefix_of` full_progress (length (image_files self)) /\
    ((exists tn fn pre d,
         run_try E self w = (Return (tn, fn), w', t) /\
         t = pre ++ [Emit (finished fn d)] /\ Forall ok_action pre /\
         keys tn = foldl add_key [] (plan_of E self w) /\
         fn = numbered (platform_of E) (new_prefix self) (keys tn) /\
         (NoDup (image_files self) ->
          progress_values t = full_progress (length (image_files self))))
     \/ (exists e pre src dst,
           t = pre ++ [Rename src dst (Some e); Emit (error (PyExn.str e))] /\
           Forall ok_action pre)).
Proof.
  rewrite run_unfold. destruct (run_try E self w) as [[[[tn fn]|e] w'] t] eqn:Hr.
  - apply run_try_spec in Hr as Hs. destruct Hs as (Hfs & Hpv & Hk & Hfn & (pre & d & -> & Hok) & Hfull).
    exists w', (pre ++ [Emit (finished fn d)]). split_and!; try done.
    left. by exists tn, fn, pre, d.
  - apply run_try_spec in Hr as (Hfs & Hpv & pre & src & dst & -> & Hok).
    eexists w', _. split; [done|]. split_and!.
    + rewrite !replay_app in *. done.
    + rewrite !progress_values_app in *. simpl in *. by rewrite !app_nil_r in *.
    + right. exists e, pre, src, dst. by rewrite <- app_assoc.
Qed.

Lemma Forall_ok_not_elem (P : action -> bool) pre a :
  Forall ok_action pre -> (forall b, ok_action b -> P b = false) -> P a = true -> a ∉ pre.
Proof.
  intros Hok HP Ha Hin. rewrite Forall_forall in Hok.
  specialize (HP a (Hok a Hin)). congruence.
Qed.

(** A run that emits [finished] is one whose [try] block returns. *)
Lemma run_finished_inv E self w m d :
  Emit (finished m d) ∈ (run E self w).2 ->
  exists tn w' t,
    run_try E self w = (Return (tn, m), w', t) /\
    keys tn = foldl add_key [] (plan_of E self w) /\
    m = numbered (platform_of E) (new_prefix self) (keys tn).
Proof.
  destruct (run_cases E self w) as (w' & t & Hrun & _ & _ & H). rewrite Hrun. simpl.
  intros Hin.
  destruct H as [(tn & fn & pre & d' & Hr & -> & Hok & Hk & Hfn & _)
                |(e & pre & src & dst & -> & Hok)].
  - apply elem_of_app in Hin as [Hin|Hin].
    + by apply (Forall_ok_not_elem is_terminal) in Hin;
        [|done|apply ok_action_not_terminal|].
    + apply list_elem_of_singleton in Hin. injection Hin as -> ->.
      by exists tn, w', (pre ++ [Emit (finished fn d')]).
  - apply elem_of_app in Hin as [Hin|Hin].
    + by apply (Forall_ok_not_elem is_terminal) in Hin;
        [|done|apply ok_action_not_terminal|].
    + apply elem_of_cons in Hin as [?|Hin]; [done|].
      by apply list_elem_of_singleton in Hin.
Qed.

End RunCases.
(** ** The claims on the protocol and on the result *)

Section Claims.

Lemma renames_ok pre x : Forall ok_action pre -> x ∈ renames pre -> x.2 = None.
Proof.
  induction 1 as [|a pre Ha _ IH]; simpl; [by intros ?%elem_of_nil|].
  destruct a as [[]|s d' []]; try done.
  intros [->|?]%elem_of_cons; [done|auto].
Qed.

Lemma elem_of_foldl_add_key f l ks : f ∈ foldl add_key ks l <-> f ∈ ks \/ f ∈ l.
Proof.
  revert ks. induction l as [|k l IH]; intros ks; simpl.
  - rewrite elem_of_nil. tauto.
  - rewrite IH, elem_of_cons. unfold add_key. case_decide as Hk.
    + split; [tauto|]. intros [?|[->|?]]; auto.
    + rewrite elem_of_app, list_elem_of_singleton. tauto.
Qed.

Lemma filter_eq_none (f : string) l : f ∉ l -> filter (fun k => f = k) l = [].
Proof.
  induction l as [|k l IH]; [done|]. rewrite not_elem_of_cons. intros [? ?].
  rewrite filter_cons, decide_False by done. auto.
Qed.

Lemma filter_eq_once (f : string) l :
  NoDup l -> f ∈ l -> length (filter (fun k => f = k) l) = 1%nat.
Proof.
  induction 1 as [|k l Hk _ IH]; [by intros ?%elem_of_nil|].
  rewrite filter_cons. intros [->|Hin]%elem_of_cons.
  - rewrite decide_True by done. simpl. by rewrite filter_eq_none.
  - rewrite decide_False by (by intros ->). auto.
Qed.

End Claims.

(** C4. Every invocation of [run] emits exactly one terminal signal,
    either [finished] with the mapping and the duration or [error] with a
    message, and that signal is the last action of the run; [run] itself
    returns normally. *)
Theorem C4_one_terminal_signal E self w :
  (run E self w).1.1 = Return tt /\
  exists pre term,
    (run E self w).2 = pre ++ [Emit term] /\
    Forall (fun a => is_terminal a = false) pre /\
    ((exists result duration, term = finished result duration)
     \/ (exists message, term = error message)).
Proof.
  destruct (run_cases E self w) as (w' & t & -> & _ & _ & H). split; [done|]. simpl.
  destruct H as [(tn & fn & pre & d & _ & -> & Hok & _)|(e & pre & src & dst & -> & Hok)].
  - exists pre, (finished fn d). split_and!; [done| |by left; eauto].
    eapply Forall_impl; [apply Hok|]. apply ok_action_not_terminal.
  - exists (pre ++ [Rename src dst (Some e)]), (error (PyExn.str e)).
    split_and!; [by rewrite <- app_assoc| |by right; eauto].
    apply Forall_app. split; [|by repeat constructor].
    eapply Forall_impl; [apply Hok|]. apply ok_action_not_terminal.
Qed.

(** C5. If an [os.rename] call of a run raises [e], that call is the
    last one of the run, the only thing that follows it is the one signal
    [error(str(e))], nothing is raised to the caller of [run], and the
    folder is left as the renames before the failure made it: none of them
    is undone. *)
Theorem C5_failure_is_caught E self w src dst e :
  (src, dst, Some e) ∈ renames (run E self w).2 ->
  (run E self w).1.1 = Return tt /\
  exists pre,
    (run E self w).2 = pre ++ [Rename src dst (Some e); Emit (error (PyExn.str e))] /\
    Forall ok_action pre /\
    fs (run E self w).1.2 = replay pre (fs w).
Proof.
  destruct (run_cases E self w) as (w' & t & -> & Hfs & _ & H). simpl. intros Hin.
  split; [done|].
  destruct H as [(tn & fn & pre & d & _ & -> & Hok & _)|(e' & pre & s' & d' & -> & Hok)].
  - rewrite renames_app, app_nil_r in Hin. by apply (renames_ok _ _ Hok) in Hin.
  - rewrite renames_app in Hin. apply elem_of_app in Hin as [Hin|Hin].
    + by apply (renames_ok _ _ Hok) in Hin.
    + apply list_elem_of_singleton in Hin. injection Hin as -> -> ->.
      exists pre. split_and!; [done..|]. by rewrite Hfs, replay_app.
Qed.

(** C1. On a successful run on distinct files, the entry of the result for
    the i-th file of the permuted order (i = 1..N) is that file with the
    name prefix + i zero-padded to 3 digits + the file's extension: the
    indices are 1..N in order. *)
Theorem C1_final_names E self w result duration :
  NoDup (image_files self) ->
  Emit (finished result duration) ∈ (run E self w).2 ->
  plan_of E self w ≡ₚ image_files self /\
  keys result = plan_of E self w /\
  Forall2 (fun i kv =>
             kv.2 = new_prefix self +:+ fmt03d i +:+ ext (platform_of E) kv.1)
          (seq 1 (length (image_files self))) result.
Proof.
  intros Hnd (tn & w' & t & _ & Hk & ->)%run_finished_inv.
  pose proof (plan_of_Permutation E self w) as Hp.
  rewrite foldl_add_key_fresh in Hk by (by rewrite Hp). simpl in Hk. rewrite Hk.
  split; [done|]. split; [apply keys_numbered|].
  apply Forall2_same_length_lookup_2.
  - unfold numbered. rewrite length_seq, length_imap. by rewrite Hp.
  - intros i n kv [-> _]%lookup_seq. unfold numbered. rewrite list_lookup_imap.
    destruct (plan_of E self w !! i); [|done]. by intros [= <-].
Qed.

(** C2. On a successful run every file of the input list is a key of
    [temp_names] exactly once and a key of the result exactly once; for
    distinct files the result has as many entries as the input list; and
    no two entries of the result have the same final name. *)
Theorem C2_mappings E self w temp_names final_names w' t :
  run_try E self w = (Return (temp_names, final_names), w', t) ->
  (exists duration, Emit (finished final_names duration) ∈ (run E self w).2) /\
  (forall f, f ∈ image_files self ->
     length (filter (fun k => f = k) (keys temp_names)) = 1%nat /\
     length (filter (fun k => f = k) (keys final_names)) = 1%nat) /\
  (NoDup (image_files self) -> length final_names = length (image_files self)) /\
  NoDup (values final_names).
Proof.
  intros Hr. pose proof (run_unfold E self w) as Hrun. rewrite Hr in Hrun.
  apply run_try_spec in Hr as (_ & _ & Hk & -> & (pre & d & -> & _) & _).
  pose proof (plan_of_Permutation E self w) as Hp.
  assert (NoDup (keys temp_names)) as Hnd.
  { rewrite Hk. apply foldl_add_key_NoDup, NoDup_nil_2. }
  split_and!.
  - exists d. rewrite Hrun. simpl. apply elem_of_app. right. by left.
  - intros f Hf. rewrite keys_numbered.
    assert (f ∈ keys temp_names).
    { rewrite Hk. apply elem_of_foldl_add_key. right. by rewrite Hp. }
    split; by apply filter_eq_once.
  - intros Hd. unfold numbered. rewrite length_imap, Hk.
    rewrite foldl_add_key_fresh by (by rewrite Hp). simpl. by rewrite Hp.
  - apply values_numbered_NoDup.
Qed.

(** C10. Two successful runs with the same permuted order and the same
    prefix (on the same platform) emit the same result, whatever the UUIDs,
    the clock and the folders were: the result is a function of the
    permuted order and the prefix alone. *)
Theorem C10_result_ignores_uuids E1 E2 self1 self2 w1 w2 m1 d1 m2 d2 :
  platform_of E1 = platform_of E2 ->
  new_prefix self1 = new_prefix self2 ->
  plan_of E1 self1 w1 = plan_of E2 self2 w2 ->
  Emit (finished m1 d1) ∈ (run E1 self1 w1).2 ->
  Emit (finished m2 d2) ∈ (run E2 self2 w2).2 ->
  m1 = m2 /\
  m1 = numbered (platform_of E1) (new_prefix self1)
         (foldl add_key [] (plan_of E1 self1 w1)).
Proof.
  intros Hpl Hpre Hplan (tn1 & ? & ? & _ & Hk1 & ->)%run_finished_inv
         (tn2 & ? & ? & _ & Hk2 & ->)%run_finished_inv.
  by rewrite Hk1, Hk2, Hpl, Hpre, Hplan.
Qed.
(** ** Progress *)

Section Progress.

Lemma monotone_prefix l1 l2 : l1 `prefix_of` l2 -> monotone l2 -> monotone l1.
Proof.
  intros Hp H i j a b Hij Ha Hb.
  eapply (H i j); eauto using prefix_lookup_Some.
Qed.

Lemma monotone_app l1 l2 :
  monotone l1 -> monotone l2 ->
  (forall a b, a ∈ l1 -> b ∈ l2 -> (a <= b)%Z) ->
  monotone (l1 ++ l2).
Proof.
  intros H1 H2 H12 i j a b Hij Ha Hb.
  apply lookup_app_Some in Ha as [Ha|[Hi Ha]]; apply lookup_app_Some in Hb as [Hb|[Hj Hb]].
  - by apply (H1 i j).
  - apply H12; eauto using list_elem_of_lookup_2.
  - apply lookup_lt_Some in Hb. lia.
  - apply (H2 (i - length l1)%nat (j - length l1)%nat); [lia|done..].
Qed.

Lemma monotone_singleton a : monotone [a].
Proof.
  intros i j x y _ Hi Hj.
  apply list_lookup_singleton_Some in Hi as [_ <-].
  apply list_lookup_singleton_Some in Hj as [_ <-]. lia.
Qed.

Lemma monotone_fmap_seq (g : nat -> Z) k n :
  (forall i j, (i <= j)%nat -> (g i <= g j)%Z) -> monotone (g <$> seq k n).
Proof.
  intros Hg i j a b Hij. rewrite !list_lookup_fmap.
  destruct (seq k n !! i) as [x|] eqn:Hx; [|done].
  destruct (seq k n !! j) as [y|] eqn:Hy; [|done].
  apply lookup_seq in Hx as [-> _]. apply lookup_seq in Hy as [-> _].
  intros [= <-] [= <-]. apply Hg. lia.
Qed.

Lemma elem_of_fmap_seq (g : nat -> Z) k n v :
  v ∈ g <$> seq k n -> exists i, v = g i /\ (k <= i < k + n)%nat.
Proof.
  intros (i & -> & Hi)%list_elem_of_fmap. exists i. split; [done|].
  by apply elem_of_seq in Hi.
Qed.

Lemma full_progress_monotone n : n <> 0%nat -> monotone (full_progress n).
Proof.
  intros Hn. unfold full_progress.
  apply (monotone_app [_]); [apply monotone_singleton| |].
  - apply monotone_app.
    + apply monotone_fmap_seq. intros. by apply half_percent_mono.
    + apply (monotone_app [_]); [apply monotone_singleton| |].
      * apply monotone_fmap_seq. intros.
        apply Z.add_le_mono_l. by apply half_percent_mono.
      * intros a b ->%list_elem_of_singleton (i & -> & _)%elem_of_fmap_seq.
        pose proof (half_percent_nonneg i n). lia.
    + intros a b (i & -> & Hi)%elem_of_fmap_seq Hb.
      assert (half_percent i n <= 50)%Z by (apply half_percent_le; lia).
      apply elem_of_cons in Hb as [->|(j & -> & _)%elem_of_fmap_seq]; [done|].
      pose proof (half_percent_nonneg j n). lia.
  - intros a b ->%list_elem_of_singleton Hb.
    apply elem_of_app in Hb as [(i & -> & _)%elem_of_fmap_seq|Hb].
    { apply half_percent_nonneg. }
    apply elem_of_cons in Hb as [->|(j & -> & _)%elem_of_fmap_seq]; [done|].
    pose proof (half_percent_nonneg j n). lia.
Qed.

Lemma full_progress_range n :
  n <> 0%nat -> Forall (fun v => (0 <= v <= 100)%Z) (full_progress n).
Proof.
  intros Hn. unfold full_progress.
  constructor; [done|]. apply Forall_app. split; [|constructor; [done|]].
  - apply Forall_forall. intros v (i & -> & Hi)%elem_of_fmap_seq.
    pose proof (half_percent_nonneg i n).
    assert (half_percent i n <= 50)%Z by (apply half_percent_le; lia). lia.
  - apply Forall_forall. intros v (i & -> & Hi)%elem_of_fmap_seq.
    pose proof (half_percent_nonneg i n).
    assert (half_percent i n <= 50)%Z by (apply half_percent_le; lia). lia.
Qed.

Lemma full_progress_last n : n <> 0%nat -> last (full_progress n) = Some 100%Z.
Proof.
  intros Hn. unfold full_progress. destruct n as [|n]; [done|].
  rewrite (seq_S n 1), !fmap_app. simpl.
  rewrite (half_percent_all (S n)) by done.
  set (l1 := (fun i => half_percent i (S n)) <$> seq 1 n).
  set (l2 := (fun i => (50 + half_percent i (S n))%Z) <$> seq 1 n).
  change (last ((0%Z :: l1 ++ [50%Z]) ++ (50%Z :: l2) ++ [100%Z]) = Some 100%Z).
  by rewrite (app_assoc _ (50%Z :: l2) [100%Z]), last_snoc.
Qed.

End Progress.

(** C3. In any run on a non-empty list of files the percentages of the
    progress signals never decrease and lie between 0 and 100; on a
    successful run on distinct files the last one is 100. *)
Theorem C3_progress E self w :
  image_files self <> [] ->
  monotone (progress_values (run E self w).2) /\
  Forall (fun v => (0 <= v <= 100)%Z) (progress_values (run E self w).2) /\
  (NoDup (image_files self) ->
   (exists result duration, Emit (finished result duration) ∈ (run E self w).2) ->
   last (progress_values (run E self w).2) = Some 100%Z).
Proof.
  intros Hne.
  assert (length (image_files self) <> 0%nat) as Hn.
  { by destruct (image_files self). }
  destruct (run_cases E self w) as (w' & t & Hrun & _ & Hpre & H).
  rewrite Hrun. simpl. split_and!.
  - eapply monotone_prefix; [done|]. by apply full_progress_monotone.
  - destruct Hpre as [k Hk]. pose proof (full_progress_range _ Hn) as Hr.
    rewrite Hk in Hr. by apply Forall_app in Hr as [Hr _].
  - intros Hnd (m & d & Hin).
    destruct H as [(tn & fn & pre & d' & _ & _ & _ & _ & _ & Hfull)
                  |(e & pre & src & dst & -> & Hok)].
    + rewrite Hfull by done. by apply full_progress_last.
    + exfalso. apply elem_of_app in Hin as [Hin|Hin].
      * by apply (Forall_ok_not_elem is_terminal) in Hin;
          [|done|apply ok_action_not_terminal|].
      * apply elem_of_cons in Hin as [?|Hin]; [done|].
        by apply list_elem_of_singleton in Hin.
Qed.

(** C9. On an empty list of files [run] raises nothing (no division is
    evaluated, no rename is attempted): it emits the two phase signals and
    [finished] with an empty mapping, and leaves the folder as it was. *)
Theorem C9_empty_list E self w :
  image_files self = [] ->
  run E self w =
    (Return tt,
     World (fs w) (n_rename w) (n_uuid w) (n_random w) (S (S (n_clock w))),
     [Emit (progress_update 0 "Phase 1/2: Preparing files...");
      Emit (progress_update 50 "Phase 2/2: Finalizing names...");
      Emit (finished [] (sub (clock E (S (n_clock w))) (clock E (n_clock w))))]).
Proof.
  intros H. unfold run, run_try, random_shuffle. rewrite H.
  unfold try_except, bind, time_time, emit, ret. simpl. done.
Qed.
(** ** The controller *)

Section ControllerFacts.

Lemma elem_of_listdir (d : folder) f : f ∈ listdir d <-> is_Some (d !! f).
Proof.
  unfold listdir. rewrite list_elem_of_fmap. split.
  - intros ([f' e] & -> & H%elem_of_map_to_list). by exists e.
  - intros [e H]. exists (f, e). split; [done|]. by apply elem_of_map_to_list.
Qed.

Lemma isfile_true (d : folder) f :
  isfile d f = true <-> exists i, d !! f = Some (Entry RegularFile i).
Proof.
  unfold isfile. destruct (d !! f) as [[[] i]|]; split; try done;
    try (by intros [? [=]]). intros _. by exists i.
Qed.

Lemma elem_of_image_extensions x :
  x ∈ image_extensions <->
  x ∈ [".jpg"; ".jpeg"; ".png"; ".gif"; ".bmp"; ".tiff"; ".webp"].
Proof.
  unfold image_extensions.
  rewrite !elem_of_union, !elem_of_singleton, !elem_of_cons, elem_of_nil. tauto.
Qed.

End ControllerFacts.

(** C8. The scan returns, each once, exactly the entries of the folder
    that are regular files and whose extension, lower-cased, is one of the
    seven supported ones; entries whose extensions differ only in case are
    treated alike. *)
Theorem C8_enumeration pl (d : folder) :
  NoDup (get_image_files pl d) /\
  (forall f,
     f ∈ get_image_files pl d <->
     (exists i, d !! f = Some (Entry RegularFile i)) /\
     lower (ext pl f) ∈ [".jpg"; ".jpeg"; ".png"; ".gif"; ".bmp"; ".tiff"; ".webp"]) /\
  (forall f g i j,
     d !! f = Some (Entry RegularFile i) ->
     d !! g = Some (Entry RegularFile j) ->
     lower (ext pl f) = lower (ext pl g) ->
     (f ∈ get_image_files pl d <-> g ∈ get_image_files pl d)).
Proof.
  assert (forall f,
     f ∈ get_image_files pl d <->
     (exists i, d !! f = Some (Entry RegularFile i)) /\
     lower (ext pl f) ∈ [".jpg"; ".jpeg"; ".png"; ".gif"; ".bmp"; ".tiff"; ".webp"]) as Hchar.
  { intros f. unfold get_image_files.
    rewrite list_elem_of_filter, elem_of_listdir, isfile_true, elem_of_image_extensions.
    split; [tauto|]. intros [[i Hi] ?]. split_and!; eauto. }
  split_and!.
  - apply NoDup_filter, NoDup_fst_map_to_list.
  - done.
  - intros f g i j Hf Hg Hext. rewrite !Hchar, Hext. split; intros [_ ?]; eauto.
Qed.

(** C7, as the code has it: the default prefix is used when the prefix
    field is the empty string, and any other text, blank or not, is used
    as it is. *)
Theorem C7_prefix_default pl u (d : folder) wk :
  process_folder pl u d = Started wk ->
  (prefix_text u = EmptyString -> new_prefix wk = "image_") /\
  (prefix_text u <> EmptyString -> new_prefix wk = prefix_text u).
Proof.
  unfold process_folder. destruct (path_isdir u); [|done]. simpl.
  destruct (get_image_files pl d); [done|]. destruct (reply_yes u); [|done].
  intros [= <-]. simpl. by destruct (prefix_text u).
Qed.

Lemma C7_prefix_default_witness :
  (prefix_text (Ui "/home/me/photos" true "holiday_" true) = EmptyString ->
   new_prefix (init "/home/me/photos" (get_image_files posix Sample.photos) (Some "holiday_"))
   = "image_") /\
  (prefix_text (Ui "/home/me/photos" true "holiday_" true) <> EmptyString ->
   new_prefix (init "/home/me/photos" (get_image_files posix Sample.photos) (Some "holiday_"))
   = "holiday_").
Proof.
  apply (C7_prefix_default posix (Ui "/home/me/photos" true "holiday_" true) Sample.photos).
  vm_compute. reflexivity.
Defined.

(** C7 as stated fails: a prefix of one space is blank, yet the worker is
    started with it and not with the default. *)
Lemma C7_counterexample :
  let u := Ui "/home/me/photos" true " " true in
  blank (prefix_text u) = true /\
  exists wk,
    process_folder posix u Sample.photos = Started wk /\
    new_prefix wk = " " /\ new_prefix wk <> "image_".
Proof.
  split; [reflexivity|]. eexists. split; [vm_compute; reflexivity|]. split; [reflexivity|].
  discriminate.
Qed.
(** ** The claims on the sample folder *)

Lemma get_image_files_NoDup pl (d : folder) : NoDup (get_image_files pl d).
Proof. apply NoDup_filter, NoDup_fst_map_to_list. Qed.

Lemma C1_final_names_witness :
  plan_of Sample.calm Sample.worker Sample.start ≡ₚ image_files Sample.worker /\
  keys Sample.result = plan_of Sample.calm Sample.worker Sample.start /\
  Forall2 (fun i kv =>
             kv.2 = new_prefix Sample.worker +:+ fmt03d i
                    +:+ ext (platform_of Sample.calm) kv.1)
          (seq 1 (length (image_files Sample.worker))) Sample.result.
Proof.
  apply (C1_final_names Sample.calm Sample.worker Sample.start Sample.result 1%Q).
  - apply get_image_files_NoDup.
  - vm_compute. elem_of_list.
Defined.

Lemma C2_mappings_witness :
  (exists duration,
     Emit (finished Sample.result duration)
     ∈ (run Sample.calm Sample.worker Sample.start).2) /\
  (forall f, f ∈ image_files Sample.worker ->
     length (filter (fun k => f = k)
               (keys [("b.JPG", "temp_u0.JPG"); ("a.png", "temp_u1.png");
                      ("c.gif", "temp_u2.gif")])) = 1%nat /\
     length (filter (fun k => f = k) (keys Sample.result)) = 1%nat) /\
  (NoDup (image_files Sample.worker) ->
   length Sample.result = length (image_files Sample.worker)) /\
  NoDup (values Sample.result).
Proof.
  eapply (C2_mappings Sample.calm Sample.worker Sample.start).
  vm_compute. reflexivity.
Defined.

Lemma C3_progress_witness :
  monotone (progress_values (run Sample.calm Sample.worker Sample.start).2) /\
  Forall (fun v => (0 <= v <= 100)%Z)
    (progress_values (run Sample.calm Sample.worker Sample.start).2) /\
  (NoDup (image_files Sample.worker) ->
   (exists result duration,
      Emit (finished result duration)
      ∈ (run Sample.calm Sample.worker Sample.start).2) ->
   last (progress_values (run Sample.calm Sample.worker Sample.start).2) = Some 100%Z).
Proof.
  apply (C3_progress Sample.calm Sample.worker Sample.start).
  vm_compute. discriminate.
Defined.

Lemma C5_failure_is_caught_witness :
  (run Sample.fifth_fails Sample.worker Sample.start).1.1 = Return tt /\
  exists pre,
    (run Sample.fifth_fails Sample.worker Sample.start).2
    = pre ++ [Rename "temp_u1.png" "image_002.png" (Some Sample.denied);
              Emit (error (PyExn.str Sample.denied))] /\
    Forall ok_action pre /\
    fs (run Sample.fifth_fails Sample.worker Sample.start).1.2
    = replay pre (fs Sample.start).
Proof.
  apply (C5_failure_is_caught Sample.fifth_fails Sample.worker Sample.start).
  vm_compute. elem_of_list.
Defined.

Lemma C9_empty_list_witness :
  run Sample.calm (init "/home/me/empty" [] None) Sample.start =
    (Return tt, World Sample.photos 0 0 0 2,
     [Emit (progress_update 0 "Phase 1/2: Preparing files...");
      Emit (progress_update 50 "Phase 2/2: Finalizing names...");
      Emit (finished [] (sub (clock Sample.calm 1) (clock Sample.calm 0)))]).
Proof.
  apply (C9_empty_list Sample.calm (init "/home/me/empty" [] None) Sample.start).
  reflexivity.
Defined.

Lemma C10_result_ignores_uuids_witness :
  Sample.result = Sample.result /\
  Sample.result
  = numbered (platform_of Sample.calm) (new_prefix Sample.worker)
      (foldl add_key [] (plan_of Sample.calm Sample.worker Sample.start)).
Proof.
  apply (C10_result_ignores_uuids Sample.calm Sample.calm' Sample.worker Sample.worker
           Sample.start Sample.start Sample.result 1%Q Sample.result 7%Q).
  - reflexivity.
  - reflexivity.
  - vm_compute. reflexivity.
  - vm_compute. elem_of_list.
  - vm_compute. elem_of_list.
Defined.
(** ** A failure in the middle of the second phase *)

Section PartialFailure.

Lemma rename_failure_None E src dst w :
  rename_failure E src dst w = None -> is_Some (fs w !! src).
Proof.
  unfold rename_failure, rename_error. destruct (io_fault E _); [done|].
  by destruct (fs w !! src).
Qed.

Lemma move_insert src dst (d : folder) e :
  d !! src = Some e -> src <> dst -> move src dst d = <[dst := e]> (delete src d).
Proof. intros H Hne. unfold move. rewrite H. by rewrite decide_False. Qed.

(** Two names of one entry are one name when no two entries of the folder
    share an inode. *)
Lemma same_entry_same_name (d : folder) a b e :
  NoDup (ino <$> (map_to_list d).*2) ->
  d !! a = Some e -> d !! b = Some e -> a = b.
Proof.
  intros Hnd Ha Hb.
  apply elem_of_map_to_list, list_elem_of_lookup in Ha as [i Hi].
  apply elem_of_map_to_list, list_elem_of_lookup in Hb as [j Hj].
  assert (i = j) as ->.
  { eapply NoDup_lookup; [apply Hnd| |];
      rewrite !list_lookup_fmap; [rewrite Hi|rewrite Hj]; done. }
  congruence.
Qed.

End PartialFailure.
Section PartialFailure2.

Lemma three_files_state E self w f1 f2 f3 :
  plan_of E self w = [f1; f2; f3] ->
  NoDup [f1; f2; f3] ->
  second_commit_fails E self w ->
  let t1 := temp_name E w 0 f1 in
  let t2 := temp_name E w 1 f2 in
  let t3 := temp_name E w 2 f3 in
  let n1 := new_name (platform_of E) (new_prefix self) 1 f1 in
  let n2 := new_name (platform_of E) (new_prefix self) 2 f2 in
  let d1 := move f1 t1 (fs w) in
  let d2 := move f2 t2 d1 in
  let d3 := move f3 t3 d2 in
  let d4 := move t1 n1 d3 in
  fs (run E self w).1.2 = d4 /\
  is_Some (fs w !! f1) /\ is_Some (d1 !! f2) /\ is_Some (d2 !! f3) /\ is_Some (d3 !! t1) /\
  exists e pre,
    (run E self w).2 = pre ++ [Rename t2 n2 (Some e); Emit (error (PyExn.str e))] /\
    Forall ok_action pre.
Proof.
  intros Hplan Hnd [Hlen Hpat]. intros.
  assert (f1 <> f2 /\ f1 <> f3 /\ f2 <> f3) as (H12 & H13 & H23).
  { rewrite !NoDup_cons, !not_elem_of_cons in Hnd. tauto. }
  apply String.eqb_neq in H12, H13, H23.
  subst t1 t2 t3 n1 n2 d1 d2 d3 d4. unfold temp_name, new_name.
  rewrite Nat.add_0_r, Nat.add_1_r.
  replace (n_uuid w + 2)%nat with (S (S (n_uuid w))) by lia.
  destruct (run E self w) as [[r w'] t] eqn:HR. cbn [fst snd] in *.
  rewrite run_unfold in HR. unfold run_try in HR.
  unfold bind at 1 in HR. unfold time_time at 1 in HR. cbn beta iota in HR.
  unfold bind at 1 in HR. rewrite random_shuffle_plan in HR.
  rewrite (plan_of_cursor E self _ w) in HR by done. rewrite Hplan in HR.
  cbn beta iota in HR. cbn [length enumerate for_each] in HR.
  unfold bind, emit, ret, phase1_body, uuid4, os_rename, truediv in HR. run_step_in HR.
  destruct (rename_failure E f1 _ _) as [?|] eqn:R1 in HR; run_step_in HR;
    [by injection HR as <- <- <-|].
  rewrite H12 in HR. run_step_in HR.
  destruct (rename_failure E f2 _ _) as [?|] eqn:R2 in HR; run_step_in HR;
    [by injection HR as <- <- <-|].
  rewrite H13, H23 in HR. run_step_in HR.
  destruct (rename_failure E f3 _ _) as [?|] eqn:R3 in HR; run_step_in HR;
    [by injection HR as <- <- <-|].
  unfold phase2_body, bind, emit, ret, os_rename, truediv in HR. run_step_in HR.
  destruct (rename_failure E _ _ _) as [?|] eqn:R4 in HR; run_step_in HR;
    [by injection HR as <- <- <-|].
  destruct (rename_failure E _ _ _) as [e|] eqn:R5 in HR; run_step_in HR.
  2:{ rewrite ?H12, ?H13, ?H23 in HR. run_step_in HR.
      destruct (rename_failure E _ _ _) as [?|] in HR; run_step_in HR;
        by injection HR as <- <- <-. }
  injection HR as <- <- <-.
  apply rename_failure_None in R1, R2, R3, R4. cbn [fs] in R1, R2, R3, R4.
  split; [done|]. split_and!; try done.
  eexists e, [_; _; _; _; _; _; _; _; _; _]. split; [reflexivity|].
  by repeat constructor.
Qed.
End PartialFailure2.
Section FourMoves.
Context (d0 : folder) (f1 f2 f3 t1 t2 t3 n1 : string).
Hypothesis Hnames : NoDup [f1; f2; f3; t1; t2; t3].
Hypothesis Hn1 : n1 ∉ [t1; t2; t3].

Hypothesis S1 : is_Some (d0 !! f1).
Hypothesis S2 : is_Some (move f1 t1 d0 !! f2).
Hypothesis S3 : is_Some (move f2 t2 (move f1 t1 d0) !! f3).

Lemma four_moves_names :
  f1 <> f2 /\ f1 <> f3 /\ f2 <> f3 /\
  f1 <> t1 /\ f1 <> t2 /\ f1 <> t3 /\ f2 <> t1 /\ f2 <> t2 /\ f2 <> t3 /\
  f3 <> t1 /\ f3 <> t2 /\ f3 <> t3 /\ t1 <> t2 /\ t1 <> t3 /\ t2 <> t3 /\
  n1 <> t1 /\ n1 <> t2 /\ n1 <> t3.
Proof.
  clear S1 S2 S3. rewrite !NoDup_cons, !not_elem_of_cons in Hnames.
  rewrite !not_elem_of_cons in Hn1. intuition congruence.
Qed.

(** After the four renames that went through, the first file is under
    its final name, the other two under their temporary names, and every
    other name of the folder is as it was, the three original names
    excepted, which are gone. *)
Lemma four_moves_lookup :
  exists e1 e2 e3,
    let d4 := move t1 n1 (move f3 t3 (move f2 t2 (move f1 t1 d0))) in
    d0 !! f1 = Some e1 /\ d0 !! f2 = Some e2 /\ d0 !! f3 = Some e3 /\
    d4 !! n1 = Some e1 /\ d4 !! t1 = None /\
    d4 !! t2 = Some e2 /\ d4 !! t3 = Some e3 /\
    forall x, x ∉ [n1; t1; t2; t3] ->
      d4 !! x = if decide (x ∈ [f1; f2; f3]) then None else d0 !! x.
Proof.
  set (d1 := move f1 t1 d0) in *. set (d2 := move f2 t2 d1) in *.
  set (d3 := move f3 t3 d2). set (d4 := move t1 n1 d3).
  destruct four_moves_names as
    (? & ? & ? & ? & ? & ? & ? & ? & ? & ? & ? & ? & ? & ? & ? & ? & ? & ?).
  destruct S1 as [e1 Lf1].
  assert (d1 = <[t1 := e1]> (delete f1 d0)) as E1 by by apply move_insert.
  destruct S2 as [e2 Lf2].
  assert (d2 = <[t2 := e2]> (delete f2 d1)) as E2 by by apply move_insert.
  destruct S3 as [e3 Lf3].
  assert (d3 = <[t3 := e3]> (delete f3 d2)) as E3 by by apply move_insert.
  assert (d3 !! t1 = Some e1) as Lt1.
  { rewrite E3, lookup_insert_ne, lookup_delete_ne by done.
    rewrite E2, lookup_insert_ne, lookup_delete_ne by done.
    by rewrite E1, lookup_insert_eq. }
  assert (d4 = <[n1 := e1]> (delete t1 d3)) as E4 by by apply move_insert.
  assert (d0 !! f2 = Some e2) as Lf2'.
  { by rewrite E1, lookup_insert_ne, lookup_delete_ne in Lf2. }
  assert (d0 !! f3 = Some e3) as Lf3'.
  { rewrite E2, lookup_insert_ne, lookup_delete_ne in Lf3 by done.
    by rewrite E1, lookup_insert_ne, lookup_delete_ne in Lf3. }
  exists e1, e2, e3. cbv zeta. fold d1 d2 d3 d4. split_and!; try done.
  - by rewrite E4, lookup_insert_eq.
  - by rewrite E4, lookup_insert_ne, lookup_delete_eq.
  - rewrite E4, lookup_insert_ne, lookup_delete_ne by done.
    rewrite E3, lookup_insert_ne, lookup_delete_ne by done.
    by rewrite E2, lookup_insert_eq.
  - rewrite E4, lookup_insert_ne, lookup_delete_ne by done.
    by rewrite E3, lookup_insert_eq.
  - intros x Hx. rewrite !not_elem_of_cons in Hx. destruct Hx as (? & ? & ? & ? & _).
    rewrite E4, lookup_insert_ne, lookup_delete_ne by done.
    rewrite E3, lookup_insert_ne by done.
    rewrite E2. rewrite E1.
    destruct (decide (x = f3)) as [->|].
    { rewrite lookup_delete_eq. by rewrite decide_True by (rewrite !elem_of_cons; tauto). }
    rewrite lookup_delete_ne, lookup_insert_ne by done.
    destruct (decide (x = f2)) as [->|].
    { rewrite lookup_delete_eq. by rewrite decide_True by (rewrite !elem_of_cons; tauto). }
    rewrite lookup_delete_ne, lookup_insert_ne by done.
    destruct (decide (x = f1)) as [->|].
    { rewrite lookup_delete_eq. by rewrite decide_True by (rewrite !elem_of_cons; tauto). }
    rewrite lookup_delete_ne by done.
    rewrite decide_False; [done|]. rewrite !elem_of_cons, elem_of_nil. tauto.
Qed.

End FourMoves.
(** C6, as the code has it. When the three renames of the first phase and
    the first rename of the second phase go through and the second rename
    of the second phase fails, then, the temporary names being new names
    and no two entries of the folder being one file, one file is under its
    final name, the other two are under their temporary names, and none is
    under its original name; the run ends with [error] and emits no
    [finished]. *)
Theorem C6_partial_failure E self w :
  second_commit_fails E self w ->
  NoDup (plan_of E self w ++ temp_names_of E self w) ->
  (forall n, n ∈ final_names_of E self w -> n ∉ temp_names_of E self w) ->
  NoDup (ino <$> (map_to_list (fs w)).*2) ->
  count_place AtFinal (fates E self w) = 1%nat /\
  count_place AtTemp (fates E self w) = 2%nat /\
  count_place AtOriginal (fates E self w) = 0%nat /\
  (exists message, last (run E self w).2 = Some (Emit (error message))) /\
  (forall result duration, Emit (finished result duration) ∉ (run E self w).2).
Proof.
  intros Hsc Hnd Hfin Hino. pose proof Hsc as [Hlen _].
  rewrite <- (plan_of_length E self w) in Hlen.
  unfold fates, temp_names_of, final_names_of in *.
  destruct (plan_of E self w) as [|f1 [|f2 [|f3 [|]]]] eqn:Hplan; try done.
  cbn [imap app compose] in *.
  set (t1 := temp_name E w 0 f1) in *. set (t2 := temp_name E w 1 f2) in *.
  set (t3 := temp_name E w 2 f3) in *.
  set (n1 := new_name (platform_of E) (new_prefix self) 1 f1) in *.
  set (n2 := new_name (platform_of E) (new_prefix self) 2 f2) in *.
  set (n3 := new_name (platform_of E) (new_prefix self) 3 f3) in *.
  assert (NoDup [f1; f2; f3]) as Hnd3 by by apply (NoDup_app [f1; f2; f3] [t1; t2; t3]) in Hnd as [? _].
  destruct (three_files_state E self w f1 f2 f3 Hplan Hnd3 Hsc)
    as (Hfs & S1 & S2 & S3 & _ & e & pre & Ht & Hok).
  fold t1 t2 t3 n1 n2 in Hfs, S2, S3, Ht.
  assert (n1 ∉ [t1; t2; t3]) as Hn1 by (apply Hfin; rewrite !elem_of_cons; tauto).
  assert (n2 ∉ [t1; t2; t3]) as Hn2 by (apply Hfin; rewrite !elem_of_cons; tauto).
  assert (n3 ∉ [t1; t2; t3]) as Hn3 by (apply Hfin; rewrite !elem_of_cons; tauto).
  destruct (four_moves_lookup (fs w) f1 f2 f3 t1 t2 t3 n1 Hnd Hn1 S1 S2 S3)
    as (e1 & e2 & e3 & L1 & L2 & L3 & Ln1 & Lt1 & Lt2 & Lt3 & Lx).
  cbv zeta in Ln1, Lt1, Lt2, Lt3, Lx. rewrite <- Hfs in Ln1, Lt1, Lt2, Lt3, Lx.
  assert (n2 <> n1) as Hn21 by (intros H%new_name_inj; lia).
  assert (n3 <> n1) as Hn31 by (intros H%new_name_inj; lia).
  assert (forall f n e', f ∈ [f1; f2; f3] -> fs w !! f = Some e' ->
            n <> n1 -> n ∉ [t1; t2; t3] ->
            fs (run E self w).1.2 !! n <> Some e') as Hnot.
  { intros f n e' Hf Le Hne Hnt. rewrite Lx by (rewrite not_elem_of_cons; tauto).
    case_decide as Hin; [done|]. intros Ln.
    by rewrite (same_entry_same_name _ _ _ _ Hino Ln Le) in Hin. }
  assert (whereabouts (fs w) (fs (run E self w).1.2) f1 t1 n1 = AtFinal) as ->.
  { unfold whereabouts. rewrite L1. by rewrite decide_True. }
  assert (whereabouts (fs w) (fs (run E self w).1.2) f2 t2 n2 = AtTemp) as ->.
  { unfold whereabouts. rewrite L2.
    rewrite decide_False by (apply (Hnot f2); [rewrite !elem_of_cons; tauto|done..]).
    by rewrite decide_True. }
  assert (whereabouts (fs w) (fs (run E self w).1.2) f3 t3 n3 = AtTemp) as ->.
  { unfold whereabouts. rewrite L3.
    rewrite decide_False by (apply (Hnot f3); [rewrite !elem_of_cons; tauto|done..]).
    by rewrite decide_True. }
  split_and!; try done.
  - exists (PyExn.str e). rewrite Ht.
    by rewrite last_app_cons.
  - intros m d. rewrite Ht. intros [Hin|Hin]%elem_of_app.
    + by apply (Forall_ok_not_elem is_terminal) in Hin;
        [|done|apply ok_action_not_terminal|].
    + apply elem_of_cons in Hin as [?|Hin]; [done|].
      by apply list_elem_of_singleton in Hin.
Qed.

Lemma C6_partial_failure_witness :
  count_place AtFinal (fates Sample.fifth_fails Sample.worker Sample.start) = 1%nat /\
  count_place AtTemp (fates Sample.fifth_fails Sample.worker Sample.start) = 2%nat /\
  count_place AtOriginal (fates Sample.fifth_fails Sample.worker Sample.start) = 0%nat /\
  (exists message,
     last (run Sample.fifth_fails Sample.worker Sample.start).2
     = Some (Emit (error message))) /\
  (forall result duration,
     Emit (finished result duration)
     ∉ (run Sample.fifth_fails Sample.worker Sample.start).2).
Proof.
  apply (C6_partial_failure Sample.fifth_fails Sample.worker Sample.start).
  - split; vm_compute; reflexivity.
  - apply (bool_decide_unpack _). vm_compute. exact I.
  - apply Forall_forall. apply (bool_decide_unpack _). vm_compute. exact I.
  - apply (bool_decide_unpack _). vm_compute. exact I.
Defined.

(** C6 as stated fails: in the scenario on the sample folder two files,
    not one, are left under a temporary name, and no file is left under
    its original name. *)
Lemma C6_counterexample :
  second_commit_fails Sample.fifth_fails Sample.worker Sample.start /\
  count_place AtFinal (fates Sample.fifth_fails Sample.worker Sample.start) = 1%nat /\
  count_place AtTemp (fates Sample.fifth_fails Sample.worker Sample.start) <> 1%nat /\
  count_place AtOriginal (fates Sample.fifth_fails Sample.worker Sample.start) <> 1%nat /\
  (exists message,
     Emit (error message) ∈ (run Sample.fifth_fails Sample.worker Sample.start).2).
Proof.
  split; [split; vm_compute; reflexivity|].
  split; [vm_compute; reflexivity|].
  split; [vm_compute; discriminate|].
  split; [vm_compute; discriminate|].
  eexists. vm_compute. elem_of_list.
Qed.

(** * Further properties *)

(** ** An error signal always reports a failed rename *)

(** X1. The signal [error] is emitted only right after an [os.rename] call
    has failed, and its message is the text of the exception of that call:
    no other statement of [run] raises, and in particular the divisions by
    [total_files] never raise [ZeroDivisionError]. *)
Theorem error_reports_failed_rename E self w message :
  Emit (error message) ∈ (run E self w).2 ->
  exists pre src dst e,
    (run E self w).2 = pre ++ [Rename src dst (Some e); Emit (error message)] /\
    message = PyExn.str e /\
    Forall ok_action pre.
Proof.
  destruct (run_cases E self w) as (w' & t & -> & _ & _ & H). simpl. intros Hin.
  destruct H as [(tn & fn & pre & d & _ & -> & Hok & _)|(e & pre & src & dst & -> & Hok)].
  - apply elem_of_app in Hin as [Hin|Hin].
    + by apply (Forall_ok_not_elem is_terminal) in Hin;
        [|done|apply ok_action_not_terminal|].
    + by apply list_elem_of_singleton in Hin.
  - apply elem_of_app in Hin as [Hin|Hin].
    + by apply (Forall_ok_not_elem is_terminal) in Hin;
        [|done|apply ok_action_not_terminal|].
    + apply elem_of_cons in Hin as [?|Hin]; [done|].
      apply list_elem_of_singleton in Hin. injection Hin as ->.
      by exists pre, src, dst, e.
Qed.

Lemma error_reports_failed_rename_witness :
  exists pre src dst e,
    (run Sample.fifth_fails Sample.worker Sample.start).2
    = pre ++ [Rename src dst (Some e);
              Emit (error "[Errno 13] Permission denied: 'temp' -> 'image'")] /\
    "[Errno 13] Permission denied: 'temp' -> 'image'" = PyExn.str e /\
    Forall ok_action pre.
Proof.
  apply (error_reports_failed_rename Sample.fifth_fails Sample.worker Sample.start).
  vm_compute. elem_of_list.
Defined.

(** ** The final name keeps the extension *)

Section ExtensionFacts.
Local Arguments String.append !_ _ / : simpl nomatch.

Lemma rfind_from_app c a b i :
  rfind_from c (a +:+ b) i =
  match rfind_from c b (i + String.length a) with
  | Some j => Some j
  | None => rfind_from c a i
  end.
Proof.
  revert i. induction a as [|x a IH]; intros i; simpl.
  - rewrite Nat.add_0_r. by destruct (rfind_from c b i).
  - rewrite IH. replace (S i + String.length a)%nat with (i + S (String.length a))%nat by lia.
    by destruct (rfind_from c b _).
Qed.

Lemma rfind_from_None c s i k : rfind_from c s i = None -> rfind_from c s k = None.
Proof.
  revert i k. induction s as [|x s IH]; intros i k; simpl; [done|].
  destruct (rfind_from c s (S i)) eqn:H1; [done|]. rewrite (IH _ (S k) H1).
  by destruct (Ascii.eqb x c).
Qed.

Lemma rfind_from_lt c s i j :
  rfind_from c s i = Some j -> (j < i + String.length s)%nat.
Proof.
  revert i j. induction s as [|x s IH]; intros i j; simpl; [done|].
  destruct (rfind_from c s (S i)) eqn:H1.
  - intros [= <-]. apply IH in H1. lia.
  - destruct (Ascii.eqb x c); [|done]. intros [= <-]. lia.
Qed.

Lemma digits_rfind_from c s i : digits s -> is_digit c = false -> rfind_from c s i = None.
Proof.
  revert i. induction s as [|x s IH]; intros i; simpl; [done|].
  rewrite andb_True. intros [Hx Hs] Hc. rewrite IH by done.
  destruct (Ascii.eqb x c) eqn:E; [|done]. apply Ascii.eqb_eq in E as ->.
  by rewrite Hc in Hx.
Qed.

Lemma take_drop_str n s : take_str n s +:+ drop_str n s = s.
Proof.
  revert s. induction n as [|n IH]; intros [|x s]; simpl; try done. by rewrite IH.
Qed.

Lemma length_take_str n s : (n <= String.length s)%nat -> String.length (take_str n s) = n.
Proof.
  revert s. induction n as [|n IH]; intros [|x s]; simpl; try done; try lia.
  intros H. rewrite IH; lia.
Qed.

Lemma drop_str_app a b : drop_str (String.length a) (a +:+ b) = b.
Proof. induction a; simpl; [by destruct b|done]. Qed.

Lemma take_str_app a b : take_str (String.length a) (a +:+ b) = a.
Proof. induction a; simpl; [by destruct b|by f_equal]. Qed.

Lemma get_app_r a b k : String.get (String.length a + k) (a +:+ b) = String.get k b.
Proof. induction a; simpl; done. Qed.

Lemma has_stem_intro p i n k c :
  (i <= k < i + n)%nat -> String.get k p = Some c -> c <> extsep -> has_stem p i n = true.
Proof.
  revert i. induction n as [|n IH]; intros i Hk Hget Hc; [lia|]. simpl.
  destruct (String.get i p) as [x|] eqn:Hx; [|done].
  destruct (Ascii.eqb x extsep) eqn:E; [|done]. apply Ascii.eqb_eq in E as ->.
  apply IH; [|done..]. destruct (decide (k = i)) as [->|]; [congruence|lia].
Qed.

Lemma rfind_app_absent c a b :
  rfind_from c b 0 = None -> rfind c (a +:+ b) = rfind c a.
Proof.
  intros H. unfold rfind. rewrite rfind_from_app.
  by rewrite (rfind_from_None _ _ _ (0 + String.length a) H).
Qed.

Lemma rfind_bound c s : (-1 <= rfind c s < Z.of_nat (String.length s))%Z.
Proof.
  unfold rfind. destruct (rfind_from c s 0) eqn:H; [|lia].
  apply rfind_from_lt in H. lia.
Qed.

Lemma sep_index_app_absent pl a b :
  (forall c, is_sep pl c -> rfind_from c b 0 = None) ->
  sep_index pl (a +:+ b) = sep_index pl a.
Proof.
  intros H. unfold sep_index.
  rewrite (rfind_app_absent (sep pl)) by (apply H; by left).
  destruct (altsep pl) as [c|] eqn:Ha; [|done].
  by rewrite (rfind_app_absent c) by (apply H; by right).
Qed.

Lemma sep_index_bound pl s : (-1 <= sep_index pl s < Z.of_nat (String.length s))%Z.
Proof.
  unfold sep_index. pose proof (rfind_bound (sep pl) s).
  destruct (altsep pl) as [c|]; [|done]. pose proof (rfind_bound c s). lia.
Qed.

(** A non-empty extension is a dot followed by characters that are
    neither dots nor separators. *)
Lemma ext_nonempty pl p :
  ext pl p <> EmptyString ->
  exists rest,
    ext pl p = String extsep rest /\
    rfind_from extsep rest 0 = None /\
    forall c, is_sep pl c -> rfind_from c rest 0 = None.
Proof.
  unfold ext, splitext. fold (sep_index pl p).
  destruct (_ && _) eqn:Hc; [|done]. intros _. simpl.
  apply andb_prop in Hc as [Hlt _]. apply Z.ltb_lt in Hlt.
  pose proof (sep_index_bound pl p) as Hsb.
  unfold rfind in Hlt |- *.
  destruct (rfind_from extsep p 0) as [j|] eqn:Hj; [|lia].
  rewrite Nat2Z.id.
  pose proof (rfind_from_spec _ _ _ _ Hj) as [_ Hget]. rewrite Nat.sub_0_r in Hget.
  pose proof (rfind_from_lt _ _ _ _ Hj) as Hjl. simpl in Hjl.
  destruct (drop_str_get _ _ _ Hget) as [rest Hrest]. exists rest. split; [done|].
  pose proof (take_drop_str j p) as Hp. rewrite Hrest in Hp.
  assert (String.length (take_str j p) = j) as Hlen by (apply length_take_str; lia).
  split.
  - rewrite <- Hp in Hj. rewrite rfind_from_app, Hlen in Hj. simpl in Hj.
    destruct (rfind_from extsep rest (S j)) as [j'|] eqn:Hr.
    + injection Hj as ->. apply rfind_from_spec in Hr. lia.
    + by apply (rfind_from_None _ _ (S j)).
  - intros c Hc.
    destruct (rfind_from c rest 0) as [k|] eqn:Hk; [exfalso|done].
    assert (exists k', rfind_from c p 0 = Some k' /\ (j < k')%nat) as (k' & Hk' & Hjk).
    { rewrite <- Hp. rewrite rfind_from_app, Hlen. simpl.
      destruct (rfind_from c rest (S j)) as [k'|] eqn:Hr.
      - exists k'. split; [done|]. apply rfind_from_spec in Hr. lia.
      - by rewrite (rfind_from_None _ _ _ 0 Hr) in Hk. }
    unfold sep_index, rfind in Hlt.
    destruct Hc as [->|Ha].
    + rewrite Hk' in Hlt. destruct (altsep pl); lia.
    + rewrite Ha, Hk' in Hlt. lia.
Qed.

Lemma dot_not_sep pl c : is_sep pl c -> c <> extsep.
Proof. by intros [->|H]; destruct pl; try done; injection H as <-. Qed.

(** The extension of a name that ends with a digit, a dot, and characters
    that are neither dots nor separators. *)
Lemma ext_of_stem_digit pl q d rest :
  is_digit d ->
  rfind_from extsep rest 0 = None ->
  (forall c, is_sep pl c -> rfind_from c rest 0 = None) ->
  ext pl (q +:+ String d (String extsep rest)) = String extsep rest.
Proof.
  intros Hd Hdot Hsep. unfold ext, splitext.
  set (p := q +:+ String d (String extsep rest)).
  fold (sep_index pl p).
  assert (p = (q +:+ String d EmptyString) +:+ String extsep rest) as Hp.
  { subst p. clear. induction q; simpl; [done|by f_equal]. }
  assert (String.length (q +:+ String d EmptyString) = S (String.length q)) as Hlen.
  { clear. induction q; simpl; [done|by f_equal]. }
  assert (rfind extsep p = Z.of_nat (S (String.length q))) as Hdi.
  { unfold rfind. rewrite Hp, rfind_from_app, Hlen. simpl.
    by rewrite (rfind_from_None _ _ _ (S (S (String.length q))) Hdot). }
  assert (sep_index pl p = sep_index pl q) as Hsi.
  { subst p. apply sep_index_app_absent. intros c Hc. cbn [rfind_from].
    rewrite (rfind_from_None _ _ _ 2 (Hsep c Hc)).
    assert (Ascii.eqb extsep c = false) as ->.
    { apply Ascii.eqb_neq. intros <-. by apply (dot_not_sep pl extsep). }
    destruct (Ascii.eqb d c) eqn:E; [|done]. apply Ascii.eqb_eq in E as ->.
    by destruct Hc as [->|H]; destruct pl; try done; injection H as <-. }
  pose proof (sep_index_bound pl q) as Hsb.
  rewrite Hdi, Hsi.
  assert ((sep_index pl q <? Z.of_nat (S (String.length q)))%Z = true) as ->
    by (apply Z.ltb_lt; lia).
  rewrite (has_stem_intro p _ _ (String.length q) d).
  - simpl. rewrite Nat2Z.id. rewrite Hp, <- Hlen. by rewrite drop_str_app.
  - lia.
  - subst p. rewrite <- (Nat.add_0_r (String.length q)). by rewrite get_app_r.
  - by intros ->.
Qed.

Lemma fmt03d_last_digit i :
  exists s d, fmt03d i = s +:+ String d EmptyString /\ is_digit d.
Proof.
  pose proof (digits_fmt03d i) as Hd.
  assert (fmt03d i <> EmptyString) as Hne.
  { unfold fmt03d. destruct (str_of_nat i) as [|c s]; [done|].
    by destruct (zeros _). }
  revert Hd Hne. generalize (fmt03d i). intros s.
  induction s as [|c s IH]; [done|]. simpl. rewrite andb_True. intros [Hc Hs] _.
  destruct s as [|c' s'].
  - by exists EmptyString, c.
  - destruct (IH Hs) as (s0 & d & -> & Hd); [done|]. by exists (String c s0), d.
Qed.

Lemma append_snoc_assoc a s d r :
  a +:+ (s +:+ String d EmptyString) +:+ r = (a +:+ s) +:+ String d r.
Proof.
  induction a as [|c a IH]; simpl; [|by rewrite IH].
  induction s; simpl; [done|by f_equal].
Qed.

End ExtensionFacts.

Lemma ext_new_name pl prefix i f :
  ext pl f <> EmptyString ->
  ext pl (new_name pl prefix i f) = ext pl f.
Proof.
  intros (rest & Hr & Hdot & Hsep)%ext_nonempty. unfold new_name. rewrite Hr.
  destruct (fmt03d_last_digit i) as (s & d & -> & Hd).
  rewrite append_snoc_assoc. by apply ext_of_stem_digit.
Qed.

(** X2. The final name of a file that has an extension has that same
    extension, whatever the prefix and the index. *)
Theorem final_name_keeps_extension pl prefix i f :
  ext pl f <> EmptyString ->
  ext pl (new_name pl prefix i f) = ext pl f.
Proof. apply ext_new_name. Qed.

Lemma final_name_keeps_extension_witness :
  ext posix (new_name posix "v1.2_" 7 "IMG.0042.JPG") = ext posix "IMG.0042.JPG".
Proof.
  apply (final_name_keeps_extension posix "v1.2_" 7 "IMG.0042.JPG").
  vm_compute. discriminate.
Defined.

(** ** A run that meets no obstacle *)

Section CleanRun.





Lemma phase1_pairs_cons E n f l :
  phase1_pairs E n (f :: l)
  = (f, "temp_" +:+ uuid_str E n +:+ ext (platform_of E) f) :: phase1_pairs E (S n) l.
Proof.
  unfold phase1_pairs. rewrite imap_cons, Nat.add_0_r. f_equal.
  apply imap_ext. intros j x _. simpl. by rewrite Nat.add_succ_r.
Qed.

Lemma phase2_pairs_cons pl prefix k it its :
  phase2_pairs pl prefix k (it :: its)
  = (it.2, new_name pl prefix k it.1) :: phase2_pairs pl prefix (S k) its.
Proof.
  unfold phase2_pairs. rewrite imap_cons, Nat.add_0_r. f_equal.
  apply imap_ext. intros j x _. simpl. by rewrite Nat.add_succ_r.
Qed.



End CleanRun.

Section CleanRunTheorem.

Lemma foldl_set_fresh ps tn :
  NoDup (keys tn ++ ps.*1) ->
  foldl (fun d p => PyDict.set p.1 p.2 d) tn ps = tn ++ ps.
Proof.
  revert tn. induction ps as [|[s t] ps IH]; intros tn H; simpl.
  { by rewrite app_nil_r. }
  assert (s ∉ keys tn) as Hs.
  { apply NoDup_app in H as (_ & H & _). intros Hin. apply (H s Hin). by left. }
  rewrite set_fresh by done. rewrite IH.
  - by rewrite <- app_assoc.
  - unfold keys in *. rewrite fmap_app. simpl. by rewrite <- app_assoc.
Qed.

Lemma phase1_pairs_fst E n l : (phase1_pairs E n l).*1 = l.
Proof.
  unfold phase1_pairs. rewrite fmap_imap.
  etrans; [|apply (list_fmap_id l)]. by rewrite <- imap_const.
Qed.





End CleanRunTheorem.




Section StartedRun.




End StartedRun.




(** ** The renames of a run follow the plan *)

Section RenameLog.

Lemma phase1_body_log E N i f tn w r w' t :
  N <> 0%nat ->
  phase1_body E N (i, f) tn w = (r, w', t) ->
  n_uuid w' = S (n_uuid w) /\
  (renames t).*1 = [(f, "temp_" +:+ uuid_str E (n_uuid w) +:+ ext (platform_of E) f)] /\
  match r with
  | Return tn' =>
      tn' = PyDict.set f ("temp_" +:+ uuid_str E (n_uuid w) +:+ ext (platform_of E) f) tn
  | Raise _ => True
  end.
Proof.
  intros HN. apply Nat.eqb_neq in HN.
  unfold phase1_body, bind, uuid4, os_rename, truediv, emit, ret. simpl.
  rewrite HN.
  by destruct (rename_failure _ _ _ _) as [e|]; simpl; intros [= <- <- <-].
Qed.

Lemma phase2_body_log E self N i o tmp fn w r w' t :
  N <> 0%nat ->
  phase2_body E self N (i, (o, tmp)) fn w = (r, w', t) ->
  (renames t).*1 = [(tmp, new_name (platform_of E) (new_prefix self) i o)].
Proof.
  intros HN. apply Nat.eqb_neq in HN.
  unfold phase2_body, bind, uuid4, os_rename, truediv, emit, ret. simpl.
  rewrite HN.
  by destruct (rename_failure _ _ _ _) as [e|]; simpl; intros [= <- <- <-].
Qed.

Lemma phase1_loop_log E N :
  N <> 0%nat ->
  forall l k tn w r w' t,
    for_each (enumerate k l) (phase1_body E N) tn w = (r, w', t) ->
    (renames t).*1 `prefix_of` phase1_pairs E (n_uuid w) l /\
    match r with
    | Return tn' =>
        (renames t).*1 = phase1_pairs E (n_uuid w) l /\
        tn' = foldl (fun d p => PyDict.set p.1 p.2 d) tn (phase1_pairs E (n_uuid w) l)
    | Raise _ => True
    end.
Proof.
  intros HN. induction l as [|f l IH]; intros k tn w r w' t H.
  { injection H as <- <- <-. split; [apply prefix_nil|done]. }
  rewrite phase1_pairs_cons. cbn [enumerate for_each] in H.
  apply bind_inv in H as [(tn1 & w1 & t1 & t2 & Hb & Hrest & ->) | (e & Hb & ->)].
  - apply phase1_body_log in Hb as (Hu & Hr1 & ->); [|done].
    apply IH in Hrest as (Hpre & Hr). rewrite Hu in Hpre, Hr.
    rewrite renames_app, fmap_app, Hr1. split; [by apply (prefix_app [_])|].
    destruct r; [|done]. destruct Hr as [-> ->]. done.
  - apply phase1_body_log in Hb as (Hu & Hr1 & _); [|done].
    rewrite Hr1. split; [|done]. apply (prefix_app [_] []), prefix_nil.
Qed.

Lemma phase2_loop_log E self N :
  N <> 0%nat ->
  forall its k fn w r w' t,
    for_each (enumerate k its) (phase2_body E self N) fn w = (r, w', t) ->
    (renames t).*1 `prefix_of` phase2_pairs (platform_of E) (new_prefix self) k its /\
    match r with
    | Return _ => (renames t).*1 = phase2_pairs (platform_of E) (new_prefix self) k its
    | Raise _ => True
    end.
Proof.
  intros HN. induction its as [|[o tmp] its IH]; intros k fn w r w' t H.
  { injection H as <- <- <-. split; [apply prefix_nil|done]. }
  rewrite phase2_pairs_cons. cbn [enumerate for_each] in H.
  apply bind_inv in H as [(fn1 & w1 & t1 & t2 & Hb & Hrest & ->) | (e & Hb & ->)].
  - apply phase2_body_log in Hb as Hr1; [|done].
    apply IH in Hrest as (Hpre & Hr).
    rewrite renames_app, fmap_app, Hr1. split; [by apply (prefix_app [_])|].
    destruct r; [|done]. by rewrite Hr.
  - apply phase2_body_log in Hb as Hr1; [|done].
    rewrite Hr1. split; [|done]. apply (prefix_app [_] []), prefix_nil.
Qed.

(** The renames of the [try] block are an initial segment of the planned
    ones, and all of them if it returns. *)
Lemma run_try_log E self w r w' t :
  NoDup (image_files self) ->
  run_try E self w = (r, w', t) ->
  (renames t).*1 `prefix_of` planned_renames E self w /\
  match r with
  | Return _ => (renames t).*1 = planned_renames E self w
  | Raise _ => True
  end.
Proof.
  intros Hnd. unfold run_try, planned_renames. intros H.
  apply bind_inv in H as [(t0 & w1 & ? & ? & H1 & H & ->)|(e & H1 & _)]; [|done].
  injection H1 as <- <- <-.
  apply bind_inv in H as [(plan & w2 & ? & ? & H2 & H & ->)|(e & H2 & _)];
    [|by rewrite random_shuffle_plan in H2].
  rewrite random_shuffle_plan in H2. injection H2 as Hplan <- <-.
  rewrite (plan_of_cursor E self _ w) in Hplan by done.
  assert (NoDup plan) as Hpnd by (rewrite <- Hplan; by rewrite plan_of_Permutation).
  rewrite Hplan. clear Hplan.
  apply bind_inv in H as [(? & w3 & ? & ? & H3 & H & ->)|(e & H3 & _)]; [|done].
  injection H3 as <- <- <-.
  destruct (decide (length plan = 0%nat)) as [HN|HN].
  { apply length_zero_iff_nil in HN as ->. simpl in H.
    injection H as <- <- <-. simpl. done. }
  set (ps1 := phase1_pairs E (n_uuid w) plan).
  apply bind_inv in H as [(tn & w4 & t4 & ? & H4 & H & ->)|(e & H4 & ->)].
  2:{ apply phase1_loop_log in H4 as [Hp _]; [|done]. simpl. split; [|done].
      by apply prefix_app_r. }
  apply phase1_loop_log in H4 as (_ & Hr4 & Htn); [|done]. cbn [n_uuid] in Hr4, Htn.
  fold ps1 in Hr4, Htn.
  rewrite foldl_set_fresh in Htn by (simpl; subst ps1; by rewrite phase1_pairs_fst).
  simpl in Htn. subst tn.
  apply bind_inv in H as [(? & w5 & ? & ? & H5 & H & ->)|(e & H5 & _)]; [|done].
  injection H5 as <- <- <-. unfold PyDict.items in H.
  apply bind_inv in H as [(fn & w6 & t6 & ? & H6 & H & ->)|(e & H6 & ->)].
  2:{ apply phase2_loop_log in H6 as [Hp _]; [|done]. simpl.
      rewrite !renames_app, fmap_app, Hr4. simpl. split; [|done]. by apply prefix_app. }
  apply phase2_loop_log in H6 as (_ & Hr6); [|done].
  unfold bind, time_time, emit, ret in H. simpl in H. injection H as <- <- <-.
  simpl. rewrite !renames_app, !fmap_app, Hr4. simpl.
  rewrite renames_app, app_nil_r, Hr6. split; [reflexivity|done].
Qed.

End RenameLog.



(** * The window during and after a run *)

Section WindowFacts.

Import Window.

Lemma signals_app t1 t2 : signals (t1 ++ t2) = signals t1 ++ signals t2.
Proof.
  induction t1 as [|[s|src dst f] t1 IH]; simpl; [done| |done].
  by rewrite IH.
Qed.

Lemma deliver_all_app s1 s2 win :
  deliver_all (s1 ++ s2) win =
  ((deliver_all s2 (deliver_all s1 win).1).1,
   (deliver_all s1 win).2 ++ (deliver_all s2 (deliver_all s1 win).1).2).
Proof.
  revert win. induction s1 as [|s s1 IH]; intros win; simpl.
  - by destruct (deliver_all s2 win).
  - destruct (deliver s win) as [win1 ds1]. rewrite IH.
    destruct (deliver_all s1 win1) as [win2 ds2]. simpl.
    by rewrite app_assoc.
Qed.

Lemma deliver_all_singleton s win : deliver_all [s] win = deliver s win.
Proof. simpl. destruct (deliver s win). by rewrite app_nil_r. Qed.

(** A value of the range is taken by the bar, another one is ignored;
    nothing else of the window changes. *)
Lemma setValue_spec v win :
  setValue v win =
  Win (path_edit win) (prefix_edit win) (prefix_edit_enabled win)
      (browse_btn_enabled win) (randomize_btn_enabled win) (status_label win)
      (if ((0 <=? v) && (v <=? 100))%Z then v else progress_value win)
      (progress_visible win) (progress_text_visible win) (progress_format win)
      (worker win).
Proof. unfold setValue. destruct win. by destruct (_ && _). Qed.

(** What the progress signals and the renames that went through leave of
    the window: no message box, the same controls, path and prefix. *)
Lemma deliver_ok_frame t win :
  Forall ok_action t ->
  let r := deliver_all (signals t) win in
  r.2 = [] /\
  browse_btn_enabled r.1 = browse_btn_enabled win /\
  prefix_edit_enabled r.1 = prefix_edit_enabled win /\
  randomize_btn_enabled r.1 = randomize_btn_enabled win /\
  progress_visible r.1 = progress_visible win /\
  path_edit r.1 = path_edit win /\
  prefix_edit r.1 = prefix_edit win.
Proof.
  intros H. revert win. induction H as [|a t Ha _ IH]; intros win; [done|].
  destruct a as [[v m|?|?]|src dst [e|]]; try done; simpl.
  - specialize (IH (update_progress v m win)).
    destruct (deliver_all (signals t) (update_progress v m win)) as [win2 ds2].
    simpl in *. unfold update_progress in IH. rewrite setValue_spec in IH.
    simpl in IH. done.
  - apply IH.
Qed.

(** The bar shows the last percentage, when all are in its range. *)
Lemma deliver_ok_value t win :
  Forall ok_action t ->
  Forall (fun v => (0 <= v <= 100)%Z) (progress_values t) ->
  progress_value (deliver_all (signals t) win).1
  = default (progress_value win) (last (progress_values t)).
Proof.
  intros H. revert win. induction H as [|a t Ha _ IH]; intros win Hr; [done|].
  destruct a as [[v m|?|?]|src dst [e|]]; try done; simpl in *.
  - apply Forall_cons_1 in Hr as [Hv Hr]. specialize (IH (update_progress v m win) Hr).
    destruct (deliver_all (signals t) (update_progress v m win)) as [win2 ds2].
    simpl in *. rewrite IH. unfold update_progress. rewrite setValue_spec. simpl.
    assert (((0 <=? v) && (v <=? 100))%Z = true) as ->.
    { apply andb_true_intro. split; apply Z.leb_le; lia. }
    rewrite last_cons. by destruct (last (progress_values t)).
  - by apply IH.
Qed.

(** The signals of a run: progress signals and then one terminal signal. *)
Lemma run_progress_range E self w :
  Forall (fun v => (0 <= v <= 100)%Z) (progress_values (run E self w).2) /\
  monotone (progress_values (run E self w).2).
Proof.
  destruct (run_cases E self w) as (w' & t & Hrun & _ & Hpre & _).
  rewrite Hrun. simpl.
  destruct (decide (length (image_files self) = 0%nat)) as [Hn|Hn].
  - rewrite Hn in Hpre. split.
    + destruct Hpre as [k Hk]. eapply (Forall_app _ _ k). rewrite <- Hk.
      repeat constructor; done.
    + eapply monotone_prefix; [done|].
      intros [|[|[|i]]] [|[|[|j]]] a b Hij; simpl; intros; simplify_eq; lia.
  - split.
    + destruct Hpre as [k Hk]. eapply (Forall_app _ _ k). rewrite <- Hk.
      by apply full_progress_range.
    + eapply monotone_prefix; [done|]. by apply full_progress_monotone.
Qed.

(** The log of a run: progress signals and renames that went through, then
    [finished], or a failed rename and [error]. *)
Lemma run_log_shape E self w :
  exists pre tail last,
    (run E self w).2 = pre ++ tail /\ Forall ok_action pre /\
    signals tail = [last] /\ progress_values tail = [] /\
    ((exists fn d,
        tail = [Emit (finished fn d)] /\ last = finished fn d /\
        (NoDup (image_files self) -> length fn = length (image_files self)))
     \/ (exists e src dst,
           tail = [Rename src dst (Some e); Emit (error (PyExn.str e))] /\
           last = error (PyExn.str e))).
Proof.
  destruct (run_cases E self w) as (w' & t & Hrun & _ & _ & H). rewrite Hrun. simpl.
  destruct H as [(tn & fn & pre & d & _ & -> & Hok & Hk & Hfn & _)
                |(e & pre & src & dst & -> & Hok)].
  - exists pre, [Emit (finished fn d)], (finished fn d). split_and!; try done.
    left. exists fn, d. split_and!; try done.
    intros Hnd. rewrite <- (keys_length fn), Hfn, keys_numbered, Hk.
    rewrite foldl_add_key_fresh.
    + apply plan_of_length.
    + simpl. by rewrite plan_of_Permutation.
  - exists pre, [Rename src dst (Some e); Emit (error (PyExn.str e))], (error (PyExn.str e)).
    split_and!; try done. right. by exists e, src, dst.
Qed.

(** X6. Whatever a run does, once its signals have reached their slots the
    three controls are enabled again, the progress bar is hidden, path
    and prefix are as before, and exactly one message box was shown. *)
Theorem window_idle_after_run E self w win :
  let r := deliver_all (signals (run E self w).2) win in
  browse_btn_enabled r.1 = true /\ prefix_edit_enabled r.1 = true /\
  randomize_btn_enabled r.1 = true /\ progress_visible r.1 = false /\
  path_edit r.1 = path_edit win /\ prefix_edit r.1 = prefix_edit win /\
  length r.2 = 1%nat.
Proof.
  destruct (run_log_shape E self w) as (pre & tail & last & -> & Hok & Hs & _ & H).
  rewrite signals_app, Hs, deliver_all_app, deliver_all_singleton. simpl.
  destruct (deliver_ok_frame pre win Hok) as (-> & _ & _ & _ & _ & Hp & Hx).
  destruct H as [(fn & d & _ & -> & _)|(e & src & dst & _ & ->)]; simpl;
    rewrite ?setValue_spec; simpl; done.
Qed.

(** X7. A successful run on distinct files ends with the bar at 100 and
    one message box, [Success], whose text is also the status line and
    gives the number of files the worker was started with. *)
Theorem success_is_shown E self w win result duration :
  NoDup (image_files self) ->
  Emit (finished result duration) ∈ (run E self w).2 ->
  let r := deliver_all (signals (run E self w).2) win in
  let final_message :=
    "Successfully renamed " +:+ str_of_nat (length (image_files self))
    +:+ " files in " +:+ fmt_2f duration +:+ " seconds." in
  r.2 = [information "Success" final_message] /\
  status_label r.1 = final_message /\
  progress_value r.1 = 100%Z /\
  progress_format r.1 = "Completed - 100%".
Proof.
  intros Hnd Hin.
  destruct (run_log_shape E self w) as (pre & tail & last & Ht & Hok & Hs & _ & H).
  rewrite Ht in Hin |- *.
  assert (tail = [Emit (finished result duration)] /\
          length result = length (image_files self)) as [-> Hlen].
  { apply elem_of_app in Hin as [Hin|Hin].
    { by apply (Forall_ok_not_elem is_terminal) in Hin;
        [|done|by intros [[]|? ? []]|done]. }
    destruct H as [(fn & d & -> & _ & Hl)|(e & src & dst & -> & _)].
    - apply list_elem_of_singleton in Hin. simplify_eq. auto.
    - apply elem_of_cons in Hin as [?|Hin]; [done|].
      by apply list_elem_of_singleton in Hin. }
  rewrite signals_app, deliver_all_app.
  change (signals [Emit (finished result duration)]) with [finished result duration].
  rewrite deliver_all_singleton.
  destruct (deliver_ok_frame pre win Hok) as (-> & _).
  unfold deliver, on_randomization_finished. rewrite setValue_spec, Hlen. done.
Qed.

(** X8. A failed run ends with one message box, [Error], that carries the
    message of the signal; the bar keeps the last percentage the worker
    reported. *)
Theorem failure_is_shown E self w win message :
  Emit (error message) ∈ (run E self w).2 ->
  let r := deliver_all (signals (run E self w).2) win in
  r.2 = [critical "Error" ("An error occurred:" +:+ nl +:+ nl +:+ message)] /\
  status_label r.1 = "An error occurred during the operation." /\
  progress_value r.1
  = default (progress_value win) (last (progress_values (run E self w).2)).
Proof.
  intros Hin. destruct (run_progress_range E self w) as [Hrange _].
  destruct (run_log_shape E self w) as (pre & tail & last & Ht & Hok & Hs & Hpv & H).
  rewrite Ht in Hin, Hrange |- *.
  rewrite progress_values_app, Hpv, app_nil_r in Hrange |- *.
  assert (last = error message) as ->.
  { apply elem_of_app in Hin as [Hin|Hin].
    { by apply (Forall_ok_not_elem is_terminal) in Hin;
        [|done|by intros [[]|? ? []]|done]. }
    destruct H as [(fn & d & -> & _ & Hl)|(e & src & dst & -> & ->)].
    - by apply list_elem_of_singleton in Hin.
    - apply elem_of_cons in Hin as [?|Hin]; [done|].
      apply list_elem_of_singleton in Hin. by simplify_eq. }
  rewrite signals_app, Hs, deliver_all_app, deliver_all_singleton. simpl.
  destruct (deliver_ok_frame pre win Hok) as (-> & _).
  split_and!; try done. simpl. by apply deliver_ok_value.
Qed.





Lemma signals_ok t :
  Forall ok_action t ->
  Forall (fun s => exists v m, s = progress_update v m) (signals t).
Proof.
  induction 1 as [|[[v m|?|?]|src dst [e|]] t Ha _ IH]; simpl; try done.
  constructor; eauto.
Qed.

Lemma run_signals E self w :
  exists ps term,
    signals (run E self w).2 = ps ++ [term] /\
    Forall (fun s => exists v m, s = progress_update v m) ps /\
    is_terminal (Emit term) = true.
Proof.
  destruct (run_log_shape E self w) as (pre & tail & term & -> & Hok & Hs & _ & H).
  exists (signals pre), term. rewrite signals_app, Hs. split_and!; [done|by apply signals_ok|].
  by destruct H as [(fn & d & _ & -> & _)|(e & src & dst & _ & ->)].
Qed.

(** What holds between any two events: the window is idle, with nothing
    pending, or locked, with the signals of one run pending. *)
Lemma reachable_inv pl basename w0 a :
  reachable pl basename w0 a ->
  let win := app_window a in
  (randomize_btn_enabled win = true -> path_edit win <> EmptyString) /\
  ((app_pending a = [] /\ browse_btn_enabled win = true /\
    prefix_edit_enabled win = true /\ progress_visible win = false)
   \/ (browse_btn_enabled win = false /\ prefix_edit_enabled win = false /\
       randomize_btn_enabled win = false /\ progress_visible win = true /\
       path_edit win <> EmptyString /\
       exists ps term,
         app_pending a = ps ++ [term] /\
         Forall (fun s => exists v m, s = progress_update v m) ps /\
         is_terminal (Emit term) = true)).
Proof.
  induction 1 as [|a b _ IH Hstep]; simpl in *.
  { split; [done|]. left. done. }
  destruct IH as [Hpath IH]. destruct Hstep as [fp a Hen|text a Hen|E isdir yes a Hen HE|s ss a Hp].
  - (* a folder is picked *)
    destruct IH as [(Hp & Hb & Hpe & Hv)|(Hb & _)]; [|congruence]. simpl.
    destruct fp as [|c fp]; simpl; [by split; [|left]|].
    split; [done|]. by left.
  - (* the prefix is edited *)
    destruct IH as [(Hp & Hb & Hpe & Hv)|(_ & Hpe & _)]; [|congruence]. simpl.
    split; [done|]. by left.
  - (* the randomize button is clicked *)
    destruct IH as [(Hp & Hb & Hpe & Hv)|(_ & _ & Hr & _)]; [|congruence].
    specialize (Hpath Hen). unfold process_folder.
    destruct isdir; cbn [negb]; [|by split; [|left]].
    destruct (get_image_files pl (fs (app_world a))) as [|f fs'] eqn:Hfiles;
      [by split; [|left]|].
    destruct yes; [|by split; [|left]].
    rewrite setValue_spec.
    match goal with |- context [run E ?wk ?w] =>
      destruct (run_signals E wk w) as (ps & term & Hs & Hps & Hterm);
      destruct (run E wk w) as [[r w'] t] end.
    simpl in *. split; [done|]. right. rewrite Hp. simpl.
    split_and!; try done. by exists ps, term.
  - (* a signal reaches its slot *)
    destruct IH as [(Hp' & _)|(Hb & Hpe & Hr & Hv & Hne & ps & term & Hps & Hall & Hterm)];
      [congruence|].
    rewrite Hp in Hps. destruct ps as [|s' ps]; simpl in Hps.
    + injection Hps as -> ->. destruct term as [v m|fn d|m]; [done|..].
      * unfold deliver, on_randomization_finished. rewrite setValue_spec. simpl.
        split; [done|]. by left.
      * simpl. split; [done|]. by left.
    + injection Hps as -> ->. apply Forall_cons_1 in Hall as [(v & m & ->) Hall].
      unfold deliver, update_progress. rewrite setValue_spec. simpl.
      split; [congruence|]. right.
      split_and!; try done. by exists ps, term.
Qed.

(** X10. Between any two events the window is either idle, with nothing
    pending, the browse button and the prefix field enabled and the bar
    hidden, or locked: all three controls disabled, the bar shown, and
    what is pending are the signals of one run, progress signals and
    then its terminal signal. So no second run starts, and neither
    folder nor prefix change, before the running one has been handled. *)
Theorem controls_locked_while_busy pl basename w0 a :
  reachable pl basename w0 a ->
  let win := app_window a in
  match app_pending a with
  | [] =>
      browse_btn_enabled win = true /\ prefix_edit_enabled win = true /\
      progress_visible win = false
  | _ =>
      browse_btn_enabled win = false /\ prefix_edit_enabled win = false /\
      randomize_btn_enabled win = false /\ progress_visible win = true /\
      exists ps term,
        app_pending a = ps ++ [term] /\
        Forall (fun s => exists v m, s = progress_update v m) ps /\
        is_terminal (Emit term) = true
  end.
Proof.
  intros Hr. destruct (reachable_inv _ _ _ _ Hr) as [_ H]. simpl.
  destruct H as [(-> & H)|(Hb & Hpe & Hra & Hv & _ & ps & term & Hp & H)]; [done|].
  destruct (app_pending a) as [|s ss] eqn:Hpend.
  - by destruct ps.
  - split_and!; try done. by exists ps, term.
Qed.

(** X11. The randomize button is enabled only once a folder has been
    picked, and only while no run is pending: [process_folder] is never
    entered with an empty path, nor during a run. *)
Theorem randomize_needs_folder pl basename w0 a :
  reachable pl basename w0 a ->
  randomize_btn_enabled (app_window a) = true ->
  path_edit (app_window a) <> EmptyString /\ app_pending a = [].
Proof.
  intros Hr Hen. destruct (reachable_inv _ _ _ _ Hr) as [Hpath H].
  split; [by apply Hpath|].
  destruct H as [(-> & _)|(_ & _ & Hra & _)]; [done|congruence].
Qed.

Lemma success_is_shown_witness :
  let r := deliver_all (signals (run Sample.calm Sample.worker Sample.start).2) setup_ui in
  r.2 = [information "Success" "Successfully renamed 3 files in 1.00 seconds."] /\
  status_label r.1 = "Successfully renamed 3 files in 1.00 seconds." /\
  progress_value r.1 = 100%Z /\
  progress_format r.1 = "Completed - 100%".
Proof.
  apply (success_is_shown Sample.calm Sample.worker Sample.start setup_ui
           Sample.result 1%Q).
  - apply get_image_files_NoDup.
  - vm_compute. elem_of_list.
Defined.

Lemma failure_is_shown_witness :
  let r :=
    deliver_all (signals (run Sample.fifth_fails Sample.worker Sample.start).2)
      setup_ui in
  r.2 = [critical "Error"
           ("An error occurred:" +:+ nl +:+ nl
            +:+ "[Errno 13] Permission denied: 'temp' -> 'image'")] /\
  status_label r.1 = "An error occurred during the operation." /\
  progress_value r.1
  = default 0%Z
      (last (progress_values (run Sample.fifth_fails Sample.worker Sample.start).2)).
Proof.
  apply (failure_is_shown Sample.fifth_fails Sample.worker Sample.start setup_ui
           "[Errno 13] Permission denied: 'temp' -> 'image'").
  vm_compute. elem_of_list.
Defined.


Lemma controls_locked_while_busy_witness :
  exists a,
    reachable posix (fun p => p) Sample.start a /\
    length (app_pending a) = 9%nat /\
    browse_btn_enabled (app_window a) = false /\
    prefix_edit_enabled (app_window a) = false /\
    randomize_btn_enabled (app_window a) = false /\
    progress_visible (app_window a) = true.
Proof.
  set (a1 := App (select_folder (fun p => p) "/home/me/photos" setup_ui) Sample.start []).
  assert (reachable posix (fun p => p) Sample.start a1) as H1.
  { apply (reachable_step _ _ _ (App setup_ui Sample.start [])); [apply reachable_start|].
    exact (step_browse posix (fun p => p) "/home/me/photos"
             (App setup_ui Sample.start []) eq_refl). }
  pose proof (step_randomize posix (fun p => p) Sample.calm true true a1
                eq_refl eq_refl) as H2.
  match type of H2 with step _ _ _ ?b => set (b1 := b) in * end.
  assert (reachable posix (fun p => p) Sample.start b1) as Hr.
  { apply (reachable_step posix (fun p => p) Sample.start a1 b1 H1). exact H2. }
  exists b1. split; [exact Hr|].
  pose proof (controls_locked_while_busy _ _ _ _ Hr) as H.
  vm_compute in H. destruct H as (Hb & Hpe & Hra & Hv & _).
  split; [reflexivity|]. vm_compute. auto.
Defined.

Lemma randomize_needs_folder_witness :
  let a := App (select_folder (fun p => p) "/home/me/photos" setup_ui) Sample.start [] in
  path_edit (app_window a) <> EmptyString /\ app_pending a = [].
Proof.
  apply (randomize_needs_folder posix (fun p => p) Sample.start).
  - eapply reachable_step; [apply reachable_start|].
    exact (step_browse posix (fun p => p) "/home/me/photos"
             (App setup_ui Sample.start []) eq_refl).
  - reflexivity.
Defined.

End WindowFacts.

(** * The folder after a run, whatever its outcome *)

Section PartialRun.

Lemma replay_ok pre (d : folder) :
  Forall ok_action pre -> replay pre d = moves (renames pre).*1 d.
Proof.
  intros H. revert d. induction H as [|a pre Ha _ IH]; intros d; [done|].
  destruct a as [[]|src dst []]; try done; simpl; apply IH.
Qed.

Lemma planned_renames_length E self w :
  length (planned_renames E self w) = (2 * length (image_files self))%nat.
Proof.
  unfold planned_renames, phase2_pairs, phase1_pairs.
  rewrite length_app, !length_imap, plan_of_length. lia.
Qed.

End PartialRun.

(** X12. No rollback and no other change: after a run on distinct files
    the folder is the one before it with the first [k] planned renames
    done, where [k] is the number of all planned renames exactly when the
    run emits [finished]; a failed run leaves what it had done so far. *)
Theorem run_stops_where_it_fails E self w :
  NoDup (image_files self) ->
  exists k,
    (k <= 2 * length (image_files self))%nat /\
    fs (run E self w).1.2 = moves (take k (planned_renames E self w)) (fs w) /\
    (k = (2 * length (image_files self))%nat <->
     exists result duration, Emit (finished result duration) ∈ (run E self w).2).
Proof.
  intros Hnd. pose proof (planned_renames_length E self w) as Hlen.
  rewrite run_unfold. destruct (run_try E self w) as [[[[tn fn]|e] w'] t] eqn:Hr.
  - destruct (run_try_log _ _ _ _ _ _ Hnd Hr) as [_ Hall].
    apply run_try_spec in Hr as (Hfs & _ & _ & _ & (pre & d & -> & Hok) & _).
    exists (2 * length (image_files self))%nat. cbn [fst snd]. split_and!; [done| |].
    + rewrite Hfs, replay_app, <- Hlen, firstn_all. cbn [replay].
      rewrite renames_app, app_nil_r in Hall. rewrite <- Hall. by apply replay_ok.
    + split; [|done]. intros _. exists fn, d. apply elem_of_app. right. by left.
  - destruct (run_try_log _ _ _ _ _ _ Hnd Hr) as [[rest Hpre] _].
    apply run_try_spec in Hr as (Hfs & _ & pre & src & dst & -> & Hok).
    rewrite renames_app, fmap_app in Hpre. simpl in Hpre.
    assert (length (planned_renames E self w)
            = (length (renames pre).*1 + 1 + length rest)%nat) as Hk.
    { rewrite Hpre, !length_app. simpl. lia. }
    exists (length (renames pre).*1). cbn [fst snd]. split_and!; [lia| |].
    + rewrite Hfs, replay_app. cbn [replay]. rewrite Hpre, <- !app_assoc, take_app_length.
      by apply replay_ok.
    + split; [lia|]. intros (m & d & Hin). exfalso.
      rewrite !elem_of_app in Hin. destruct Hin as [[Hin|Hin]|Hin].
      * by apply (Forall_ok_not_elem is_terminal) in Hin;
          [|done|by intros [[]|? ? []]|done].
      * by apply list_elem_of_singleton in Hin.
      * by apply list_elem_of_singleton in Hin.
Qed.

Lemma run_stops_where_it_fails_witness :
  exists k,
    (k <= 2 * length (image_files Sample.worker))%nat /\
    fs (run Sample.fifth_fails Sample.worker Sample.start).1.2
    = moves (take k (planned_renames Sample.fifth_fails Sample.worker Sample.start))
        (fs Sample.start) /\
    (k = (2 * length (image_files Sample.worker))%nat <->
     exists result duration,
       Emit (finished result duration)
       ∈ (run Sample.fifth_fails Sample.worker Sample.start).2).
Proof.
  apply (run_stops_where_it_fails Sample.fifth_fails Sample.worker Sample.start).
  apply get_image_files_NoDup.
Defined.

(** * The temporary name keeps the extension *)

Section TempNameFacts.
Local Arguments String.append !_ _ / : simpl nomatch.

Lemma length_append a b :
  String.length (a +:+ b) = (String.length a + String.length b)%nat.
Proof. induction a; simpl; [done|by f_equal]. Qed.

Lemma sep_index_temp pl u :
  (forall c, is_sep pl c -> rfind_from c u 0 = None) ->
  sep_index pl ("temp_" +:+ u) = (-1)%Z.
Proof.
  intros Hu. unfold sep_index.
  assert (forall c, is_sep pl c -> rfind c ("temp_" +:+ u) = (-1)%Z) as H.
  { intros c Hc. rewrite rfind_app_absent by auto.
    by destruct Hc as [->|H]; destruct pl; try done; injection H as <-. }
  rewrite (H (sep pl)) by by left.
  destruct (altsep pl) as [a|] eqn:Ha; [|done]. rewrite (H a) by by right. done.
Qed.

(** The extension of a name made of [temp_], characters that are not
    separators, a dot, and characters that are neither dots nor
    separators. *)
Lemma ext_of_temp pl u rest :
  (forall c, is_sep pl c -> rfind_from c u 0 = None) ->
  rfind_from extsep rest 0 = None ->
  (forall c, is_sep pl c -> rfind_from c rest 0 = None) ->
  ext pl ("temp_" +:+ u +:+ String extsep rest) = String extsep rest.
Proof.
  intros Hu Hdot Hsep. unfold ext, splitext.
  set (q := "temp_" +:+ u).
  assert ("temp_" +:+ u +:+ String extsep rest = q +:+ String extsep rest) as ->.
  { done. }
  set (p := q +:+ String extsep rest). fold (sep_index pl p).
  assert (rfind extsep p = Z.of_nat (String.length q)) as Hdi.
  { unfold rfind. subst p. rewrite rfind_from_app. cbn [rfind_from].
    rewrite (rfind_from_None _ _ _ _ Hdot). by rewrite Ascii.eqb_refl. }
  assert (sep_index pl p = (-1)%Z) as Hsi.
  { subst p. rewrite sep_index_app_absent; [by apply sep_index_temp|].
    intros c Hc. cbn [rfind_from]. rewrite (rfind_from_None _ _ _ 1 (Hsep c Hc)).
    assert (Ascii.eqb extsep c = false) as ->; [|done].
    apply Ascii.eqb_neq. intros <-. by apply (dot_not_sep pl extsep). }
  rewrite Hdi, Hsi.
  assert ((-1 <? Z.of_nat (String.length q))%Z = true) as -> by (apply Z.ltb_lt; lia).
  rewrite (has_stem_intro p _ _ 0 "t"%char).
  - cbn [andb snd]. rewrite Nat2Z.id. subst p. by rewrite drop_str_app.
  - subst q. rewrite length_append. simpl. lia.
  - done.
  - done.
Qed.

End TempNameFacts.

Lemma ext_temp_name E w i f :
  (forall c, is_sep (platform_of E) c -> rfind_from c (uuid_str E (n_uuid w + i)) 0 = None) ->
  ext (platform_of E) f <> EmptyString ->
  ext (platform_of E) (temp_name E w i f) = ext (platform_of E) f.
Proof.
  intros Hu (rest & Hr & Hdot & Hsep)%ext_nonempty. unfold temp_name. rewrite Hr.
  by apply ext_of_temp.
Qed.

(** X13. No rename of a run changes the extension: when the files have
    extensions and the UUIDs of the run, as every UUID does, hold no path
    separator, each planned rename goes to a name with the extension of
    the name it comes from. Through both phases an image stays an image
    of the same kind. *)
Theorem renames_keep_extension E self w :
  (forall j c, (j < length (image_files self))%nat -> is_sep (platform_of E) c ->
     rfind_from c (uuid_str E (n_uuid w + j)) 0 = None) ->
  (forall f, f ∈ image_files self -> ext (platform_of E) f <> EmptyString) ->
  forall p, p ∈ planned_renames E self w ->
    ext (platform_of E) p.2 = ext (platform_of E) p.1.
Proof.
  intros Hu Hext p Hp.
  assert (forall j f, plan_of E self w !! j = Some f ->
            ext (platform_of E) (temp_name E w j f) = ext (platform_of E) f) as Htemp.
  { intros j f Hj. apply ext_temp_name.
    - intros c Hc. apply Hu; [|done]. apply lookup_lt_Some in Hj.
      by rewrite plan_of_length in Hj.
    - apply Hext. rewrite <- (plan_of_Permutation E self w).
      by eapply list_elem_of_lookup_2. }
  unfold planned_renames in Hp. apply elem_of_app in Hp as [Hp|Hp].
  - apply list_elem_of_lookup_1 in Hp as [j Hj]. unfold phase1_pairs in Hj.
    rewrite list_lookup_imap in Hj.
    destruct (plan_of E self w !! j) as [f|] eqn:Hf; [|done].
    injection Hj as <-. by apply Htemp.
  - apply list_elem_of_lookup_1 in Hp as [j Hj]. unfold phase2_pairs in Hj.
    rewrite list_lookup_imap in Hj. unfold phase1_pairs in Hj at 1.
    rewrite list_lookup_imap in Hj.
    destruct (plan_of E self w !! j) as [f|] eqn:Hf; [|done].
    injection Hj as <-. cbn [fst snd].
    rewrite ext_new_name.
    + symmetry. by apply Htemp.
    + apply Hext. rewrite <- (plan_of_Permutation E self w).
      by eapply list_elem_of_lookup_2.
Qed.

Lemma renames_keep_extension_witness :
  Forall (fun p => ext posix p.2 = ext posix p.1)
    (planned_renames Sample.calm Sample.worker Sample.start).
Proof.
  apply Forall_forall.
  apply (renames_keep_extension Sample.calm Sample.worker Sample.start).
  - intros j c Hj [->|H]; [|discriminate H].
    destruct j as [|[|[|j]]]; [reflexivity..|]. vm_compute in Hj. lia.
  - apply Forall_forall. apply (bool_decide_unpack _). vm_compute. exact I.
Defined.
